(** * Recovery task of imteksimfw: spec merging, restart policy, graph splicing

    Shallow embedding of
    [imteksimfw/fireworks/user_objects/firetasks/recover_tasks.py]:
    [dict_merge], [apply_mod_spec], [RecoverTask.appendable_wf_from_dict] and
    [RecoverTask.run_task], followed by the properties established for them.

    Python dictionaries are finite maps ([gmap]); every operation of the
    source that goes through a dictionary treats its keys independently, and
    Python compares dictionaries without regard to order.  Exceptions are
    values of [result]. *)

From stdpp Require Import gmap strings list fin_maps sorting.
From Stdlib Require Import ZArith Ascii.

#[local] Set Warnings "-register-all".
#[local] Open Scope Z_scope.

(** ** JSON-like values, exceptions *)

(** What a job spec can hold.  Strings are byte strings. *)
Inductive value :=
  | VNone
  | VBool (b : bool)
  | VInt (z : Z)
  | VStr (s : string)
  | VList (l : list value)
  | VDict (d : gmap string value).

(** The exclusion structures handed to [dict_merge] as [exclusions] and
    [merge_exclusions]: nested dictionaries whose leaves are boolean marks,
    as [run_task] builds them ([{k: True for k in fw_spec_to_exclude}]) or
    receives them. *)
Inductive excl :=
  | EMark (b : bool)
  | EDict (m : gmap string excl).

Inductive exn :=
  | TypeError
  | KeyError
  | ValueError
  | AttributeError
  | IndexError
  | RecursionError
  | OSError.

Inductive result (A : Type) :=
  | Ok (a : A)
  | Raise (e : exn).
Arguments Ok {A} a.
Arguments Raise {A} e.

(** Sequencing: an exception raised by the first computation propagates.
    Written [x ← r; k] below. *)
#[global] Instance result_bind : MBind result := λ A B f r,
  match r with
  | Ok a => f a
  | Raise e => Raise e
  end.

Definition is_Ok {A} (r : result A) : bool :=
  match r with
  | Ok _ => true
  | Raise _ => false
  end.

(** [try: ... except KeyError: <default>] *)
Definition except_KeyError {A} (r : result A) (dflt : A) : result A :=
  match r with
  | Raise KeyError => Ok dflt
  | _ => r
  end.

Definition empty_dict : value := VDict ∅.
Definition no_excl : excl := EDict ∅.

(** ** [dict_merge]  (source lines 59-145) *)

Module Merge.

(** The work [dict_merge] does for one key [k].  [dk] and [mk] are [dct.get(k)]
    and [merge_dct.get(k)] of the two shallow copies taken on entry, and
    [self_k v ex mex] stands for the recursive call
    [dict_merge(dct[k], v, add_keys=add_keys, exclusions=ex, merge_exclusions=mex)].
    The four loops of the source read and write only the entry of the key
    they are at, so the result dictionary is obtained key by key.
    [collections.Mapping] is the mapping ABC (an interpreter that still
    exports it from [collections]); among the values here it holds of
    dictionaries only.  Logging is not modelled, here and below. *)
Definition merge_entry (add_keys : bool)
    (exclusions : gmap string excl) (merge_exclusions : excl)
    (k : string) (dk mk : option value)
    (self_k : gmap string value → excl → excl → result (gmap string value))
  : result (option value) :=
  (* for k in exclusions: if (k in dct) and (dct[k] is True): del dct[k] *)
  let dk1 :=
    match dk with
    | Some (VBool true) => if decide (is_Some (exclusions !! k)) then None else dk
    | _ => dk
    end in
  (* if not add_keys: merge_dct = {k: merge_dct[k] for k in set(dct) & set(merge_dct)} *)
  let mk1 :=
    if add_keys then mk else match dk1 with Some _ => mk | None => None end in
  (* for k in dct.keys(): if isinstance(dct[k], dict) and k not in merge_dct: merge_dct[k] = {} *)
  let mk2 :=
    match mk1, dk1 with
    | None, Some (VDict _) => Some empty_dict
    | _, _ => mk1
    end in
  (* for k, v in merge_dct.items(): *)
  match mk2 with
  | None => Ok dk1
  | Some v =>
      let lower_level_exclusions := default no_excl (exclusions !! k) in
      match merge_exclusions with
      | EMark _ => Raise TypeError        (* [k not in merge_exclusions] on a bool *)
      | EDict mex =>
          match dk1, v with
          | Some (VDict _), VDict m =>
              match mex !! k with
              | None =>
                  r ← self_k m lower_level_exclusions no_excl ; Ok (Some (VDict r))
              | Some (EMark true) => Ok dk1
              | Some e =>
                  r ← self_k m lower_level_exclusions e ; Ok (Some (VDict r))
              end
          | _, _ =>
              match mex !! k with
              | None => Ok (Some v)
              | Some _ => Ok dk1
              end
          end
      end
  end.

(** Gather the per-key outcomes: the call raises as soon as one key does
    (every exception [dict_merge] can raise on dictionaries is a TypeError),
    otherwise the keys left with a value make up the returned dictionary. *)
Definition collect (rs : gmap string (result (option value)))
  : result (gmap string value) :=
  if decide (map_Forall (λ _ r, is_Ok r) rs)
  then Ok (omap (λ r, match r with Ok o => o | Raise _ => None end) rs)
  else Raise TypeError.

(** [dict_merge] with its first argument as a [value], the argument the
    recursion descends into.  [for k in exclusions] raises TypeError when
    [exclusions] is a bare mark. *)
Fixpoint dict_merge_rec (dv : value) (merge_dct : gmap string value)
    (add_keys : bool) (exclusions merge_exclusions : excl) {struct dv}
  : result (gmap string value) :=
  match dv with
  | VDict dct =>
      match exclusions with
      | EMark _ => Raise TypeError
      | EDict ex =>
          let cells :=
            merge (λ dk mk : option value, Some (λ k : string,
              merge_entry add_keys ex merge_exclusions k dk mk
                (match dk with
                 | Some x => λ v e me, dict_merge_rec x v add_keys e me
                 | None => λ _ _ _, Raise KeyError
                 end))) dct merge_dct in
          collect (map_imap (λ k c, Some (c k)) cells)
      end
  | _ => Raise AttributeError
  end.

Definition dict_merge (dct merge_dct : gmap string value) (add_keys : bool)
    (exclusions merge_exclusions : excl) : result (gmap string value) :=
  dict_merge_rec (VDict dct) merge_dct add_keys exclusions merge_exclusions.

(** [dict_merge] where the caller may pass anything for the two
    dictionaries: [.copy()] / [.keys()] fail on a non-dictionary. *)
Definition dict_merge_values (dct merge_dct : value) (add_keys : bool)
    (exclusions merge_exclusions : excl) : result (gmap string value) :=
  match dct, merge_dct with
  | VDict d, VDict m => dict_merge d m add_keys exclusions merge_exclusions
  | _, _ => Raise AttributeError
  end.

(** The recursive call for the entry [dk]. *)
Definition self_at (add_keys : bool) (dk : option value)
  : gmap string value → excl → excl → result (gmap string value) :=
  match dk with
  | Some x => λ v e me, dict_merge_rec x v add_keys e me
  | None => λ _ _ _, Raise KeyError
  end.

(** The outcome for key [k]. *)
Definition entry_of (dct merge_dct : gmap string value) (add_keys : bool)
    (ex : gmap string excl) (mex : excl) (k : string) : result (option value) :=
  merge_entry add_keys ex mex k (dct !! k) (merge_dct !! k)
    (self_at add_keys (dct !! k)).

(** Nesting depth, the measure for induction over nested dictionaries. *)
Fixpoint depth (v : value) : nat :=
  match v with
  | VDict d => S (map_fold (λ _ x acc, Nat.max (depth x) acc) 0%nat d)
  | VList l => S (foldr (λ x acc, Nat.max (depth x) acc) 0%nat l)
  | _ => 0%nat
  end.

End Merge.

(** ** Python container protocol on values *)

Module Py.

(** [bool(v)] *)
Definition truthy (v : value) : bool :=
  match v with
  | VNone => false
  | VBool b => b
  | VInt z => negb (z =? 0)
  | VStr s => match s with EmptyString => false | _ => true end
  | VList l => match l with [] => false | _ => true end
  | VDict d => negb (bool_decide (d = ∅))
  end.

Fixpoint infix (k s : string) : bool :=
  String.prefix k s ||
  match s with
  | EmptyString => false
  | String _ s' => infix k s'
  end.

Definition is_str (k : string) (v : value) : bool :=
  match v with
  | VStr s => String.eqb s k
  | _ => false
  end.

(** [k in v] for a string [k] *)
Definition contains (v : value) (k : string) : result bool :=
  match v with
  | VDict d => Ok (bool_decide (is_Some (d !! k)))
  | VList l => Ok (existsb (is_str k) l)
  | VStr s => Ok (infix k s)
  | _ => Raise TypeError
  end.

(** [v[k]] for a string [k] *)
Definition getitem (v : value) (k : string) : result value :=
  match v with
  | VDict d => match d !! k with Some x => Ok x | None => Raise KeyError end
  | _ => Raise TypeError
  end.

Fixpoint last_char (s : string) : option string :=
  match s with
  | EmptyString => None
  | String c EmptyString => Some (String c EmptyString)
  | String _ s' => last_char s'
  end.

(** [v[-1]] *)
Definition getitem_last (v : value) : result value :=
  match v with
  | VList l => match last l with Some x => Ok x | None => Raise IndexError end
  | VStr s => match last_char s with Some c => Ok (VStr c) | None => Raise IndexError end
  | VDict _ => Raise KeyError
  | _ => Raise TypeError
  end.

(** [for x in l] threading a state, stopping at the first exception *)
Fixpoint foldM {A S : Type} (f : S → A → result S) (l : list A) (s : S)
  : result S :=
  match l with
  | [] => Ok s
  | x :: l' => s' ← f s x; foldM f l' s'
  end.

Fixpoint mapM {A B : Type} (f : A → result B) (l : list A) : result (list B) :=
  match l with
  | [] => Ok []
  | x :: l' => y ← f x; ys ← mapM f l'; Ok (y :: ys)
  end.

End Py.

(** ** The workflow engine's objects

    The classes [Firework], [Workflow] and [FWAction] of the engine
    ([fireworks.core.firework]) are imported by the source file, not defined
    in it. *)

Module Wf.

(** Modelled from the spec: the engine's graph node (section 3, GraphNode),
    with its integer identifier, its job spec, its name and its list of task
    descriptors. *)
Record Firework := mkFirework {
  fw_id : Z;
  spec : gmap string value;
  name : value;
  tasks : value;
}.

(** Modelled from the spec: the engine's graph (section 3, Graph), a set of
    nodes, [id_fw], keyed by identifier, and the adjacency [links] from an
    identifier to the list of its children. *)
Record Workflow := mkWorkflow {
  id_fw : gmap Z Firework;
  links : gmap Z (list Z);
}.

Definition set_fw_id (fw : Firework) (i : Z) : Firework :=
  mkFirework i (spec fw) (name fw) (tasks fw).
Definition set_spec (fw : Firework) (sp : gmap string value) : Firework :=
  mkFirework (fw_id fw) sp (name fw) (tasks fw).

(** Modelled from the spec: the engine's node constructor
    [Firework(tasks, spec=..., name=..., fw_id=...)]. *)
Definition new_Firework (tsk : value) (sp : gmap string value) (nm : value)
    (i : Z) : Firework :=
  mkFirework i sp nm tsk.

(** Modelled from the spec: the engine's [Workflow([fw])], the graph of one
    node and no edge. *)
Definition single (fw : Firework) : Workflow :=
  mkWorkflow {[fw_id fw := fw]} {[fw_id fw := []]}.

(** Modelled from the spec: the engine's [wf.fws], the nodes of a graph. *)
Definition fws (wf : Workflow) : list Firework := (map_to_list (id_fw wf)).*2.

(** Modelled from the spec: the engine's [wf.leaf_fw_ids], the identifiers
    of the nodes with no outgoing edge. *)
Definition leaf_fw_ids (wf : Workflow) : list Z :=
  (filter (λ p : Z * list Z, p.2 = []) (map_to_list (links wf))).*1.

(** Modelled from the spec: the engine's [wf.root_fw_ids], the identifiers
    of the nodes with no incoming edge. *)
Definition root_fw_ids (wf : Workflow) : list Z :=
  let children := concat (map_to_list (links wf)).*2 in
  filter (λ i, i ∉ children) (map_to_list (links wf)).*1.

(** Modelled from the spec: the engine's [self.append_wf(new_wf, fw_ids)],
    the grafting primitive (edge insertion, no identifier changed): the
    nodes of [new_wf] are added to [self] with their own children, then
    every root of [new_wf] becomes a child of every identifier in [fw_ids].
    The engine refuses a new node whose identifier is not negative. *)
Definition append_wf (self new_wf : Workflow) (fw_ids : list Z)
  : result Workflow :=
  let root_ids := root_fw_ids new_wf in
  let leaf_ids := leaf_fw_ids new_wf in
  self1 ← Py.foldM (λ (w : Workflow) (new_fw : Firework),
      if bool_decide (0 ≤ fw_id new_fw) then Raise ValueError else
      children ←
        (if bool_decide (fw_id new_fw ∈ leaf_ids) then Ok []
         else match links new_wf !! fw_id new_fw with
              | Some c => Ok c
              | None => Raise KeyError
              end);
      Ok (mkWorkflow (<[fw_id new_fw := new_fw]> (id_fw w))
                     (<[fw_id new_fw := children]> (links w))))
    (fws new_wf) self;
  Py.foldM (λ (w : Workflow) (parent : Z),
      Py.foldM (λ (w : Workflow) (root_id : Z),
          match links w !! parent with
          | Some c => Ok (mkWorkflow (id_fw w) (<[parent := c ++ [root_id]]> (links w)))
          | None => Raise KeyError
          end) root_ids w)
    fw_ids self1.

(** Modelled from the spec: the engine's [wf._reassign_ids(old_new)], the
    identifier-reassignment primitive: nodes and edges are re-keyed through
    [old_new], identifiers it does not mention stay. *)
Definition reassign_ids (old_new : gmap Z Z) (wf : Workflow) : Workflow :=
  let rn (i : Z) := default i (old_new !! i) in
  mkWorkflow
    (foldl (λ m (p : Z * Firework), <[rn p.1 := p.2]> m) ∅ (map_to_list (id_fw wf)))
    (foldl (λ m (p : Z * list Z), <[rn p.1 := rn <$> p.2]> m) ∅ (map_to_list (links wf))).

(** [for fw in wf.fws: <mutate fw>]: every node is replaced, under its key,
    by what [g] makes of it. *)
Definition for_each_fw (g : Firework → result Firework) (wf : Workflow)
  : result Workflow :=
  nodes ← Py.foldM (λ (nodes : gmap Z Firework) (kf : Z * Firework),
      fw' ← g kf.2; Ok (<[kf.1 := fw']> nodes))
    (map_to_list (id_fw wf)) (id_fw wf);
  Ok (mkWorkflow nodes (links wf)).

(** Modelled from the spec: the engine's action object (section 4.5): stored
    output, spec updates and mods with their propagation flag, the sibling
    sub-graphs and the interposed sub-graph. *)
Record FWAction := mkFWAction {
  stored_data : value;
  update_spec : gmap string value;
  mod_spec : list value;
  propagate : bool;
  additions : list Workflow;
  detours : list Workflow;
}.

End Wf.

(** ** What the task consumes from its environment

    The engine's deserializers and nested-path primitives, the file system
    and Python's [int()] on strings are not part of the source file; the
    model is parametric in them. *)

Class Engine := {
  (** [fireworks.utilities.dict_mods] *)
  get_nested_dict_value : value → string → result value;
  set_nested_dict_value : gmap string value → string → value → result (gmap string value);
  apply_mod : value → gmap string value → result (gmap string value);
  (** [Firework.from_dict], [Workflow.from_dict] *)
  Firework_from_dict : gmap string value → result Wf.Firework;
  Workflow_from_dict : gmap string value → result Wf.Workflow;
  (** the attribute [wf.root_wf_ids] read by [write_files_prev] *)
  root_wf_ids : Wf.Workflow → result (list Z);
  (** [glob.glob(os.path.join(prefix, pattern))] *)
  glob_under : value → value → result (list string);
  (** [os.path.getmtime]; only the order of the time stamps is used *)
  getmtime : string → Z;
  (** [shutil.copy(src, dest)] *)
  shutil_copy : string → string → result unit;
  (** [os.getcwd()] *)
  getcwd : string;
  (** [int(s)] for a string [s] *)
  int_of_str : string → result Z;
}.

(** ** [apply_mod_spec]  (source lines 163-206) *)

Module Propagate.
Import Wf.

Section with_engine.
Context `{Engine}.

(** The mutable state of one traversal: the set [visited_cfid], the nodes
    of the workflow, and the list [updated_ids]. *)
Record state := mkState {
  visited : gset Z;
  nodes : gmap Z Firework;
  updated_ids : list Z;
}.

(** [wf.id_fw[cfid].spec.update(update_spec)]; [updated_ids.append(cfid)] *)
Definition update_node (upd : gmap string value) (cfid : Z) (st : state)
  : result state :=
  match nodes st !! cfid with
  | None => Raise KeyError
  | Some fw =>
      Ok (mkState (visited st)
            (<[cfid := set_spec fw (upd ∪ spec fw)]> (nodes st))
            (updated_ids st ++ [cfid]))
  end.

(** [for mod in action.mod_spec: apply_mod(mod, wf.id_fw[cfid].spec)];
    [updated_ids.append(cfid)] *)
Definition mod_node (mods : list value) (cfid : Z) (st : state) : result state :=
  match nodes st !! cfid with
  | None => Raise KeyError
  | Some fw =>
      sp ← Py.foldM (λ sp md, apply_mod md sp) mods (spec fw);
      Ok (mkState (visited st) (<[cfid := set_spec fw sp]> (nodes st))
            (updated_ids st ++ [cfid]))
  end.

Definition mark (cfid : Z) (st : state) : state :=
  mkState ({[cfid]} ∪ visited st) (nodes st) (updated_ids st).

(** The nested function [recursive_update_spec]; [depth_limit] bounds the
    nesting of the calls, as the interpreter's recursion limit does. *)
Fixpoint recursive_update_spec (depth_limit : nat) (lnk : gmap Z (list Z))
    (upd : gmap string value) (fw_ids : list Z) (st : state) : result state :=
  match depth_limit with
  | O => Raise RecursionError
  | S n =>
      Py.foldM (λ st cfid,
          if bool_decide (cfid ∈ visited st) then Ok st else
          st1 ← update_node upd cfid (mark cfid st);
          match lnk !! cfid with
          | None => Raise KeyError
          | Some children => recursive_update_spec n lnk upd children st1
          end)
        fw_ids st
  end.

(** The nested function [recursive_mod_spec].  Its last statement is
    [recursive_mod_spec(cfid)]: the call receives the integer [cfid] and its
    [for cfid in fw_ids] raises TypeError. *)
Definition recursive_mod_spec (mods : list value) (fw_ids : list Z) (st : state)
  : result state :=
  Py.foldM (λ st cfid,
      if bool_decide (cfid ∈ visited st) then Ok st else
      _ ← mod_node mods cfid (mark cfid st);
      Raise TypeError)
    fw_ids st.

(** [apply_mod_spec(wf, action)]: the workflow as mutated, and [updated_ids].
    Every nested call of [recursive_update_spec] is made for an identifier
    that was not visited before and is a key of [wf.links], which bounds the
    nesting by the number of keys. *)
Definition apply_mod_spec (wf : Workflow) (action : FWAction)
  : result (Workflow * list Z) :=
  let fw_ids := leaf_fw_ids wf in
  let has_update := negb (bool_decide (update_spec action = ∅)) in
  let has_mod := match mod_spec action with [] => false | _ => true end in
  st1 ←
    (if has_update && propagate action then
       st ← recursive_update_spec (S (S (size (links wf)))) (links wf)
              (update_spec action) fw_ids (mkState ∅ (id_fw wf) []);
       Ok (nodes st, updated_ids st)
     else if has_update then
       st ← Py.foldM (λ st cfid, update_node (update_spec action) cfid st)
              fw_ids (mkState ∅ (id_fw wf) []);
       Ok (nodes st, updated_ids st)
     else Ok (id_fw wf, []));
  st2 ←
    (if has_mod && propagate action then
       st ← recursive_mod_spec (mod_spec action) fw_ids (mkState ∅ st1.1 st1.2);
       Ok (nodes st, updated_ids st)
     else if has_mod then
       st ← Py.foldM (λ st cfid, mod_node (mod_spec action) cfid st)
              fw_ids (mkState ∅ st1.1 st1.2);
       Ok (nodes st, updated_ids st)
     else Ok st1);
  Ok (mkWorkflow st2.1 (links wf), st2.2).

End with_engine.
End Propagate.

(** ** [RecoverTask]  (source lines 209-975) *)

Module Task.
Import Wf.

(** The task's parameters as [run_task] holds them once the block of
    [self.get] / [from_fw_spec] calls at its head (lines 525-602) has run,
    with the types the docstring gives them. *)
Record params := mkParams {
  restart_wf : value;
  detour_wf : value;
  addition_wf : value;
  apply_mod_spec_to_addition_wf : bool;
  apply_mod_spec_to_detour_wf : bool;
  fizzle_on_no_restart_file : bool;
  ignore_errors : bool;
  max_restarts : Z;
  other_glob_patterns : value;
  repeated_recover_fw_name : value;
  restart_counter : string;
  restart_file_glob_patterns : string + list string;
  restart_file_dests : option (string + list string);
  superpose_restart_on_parent_fw_spec : bool;
  superpose_addition_on_parent_fw_spec : bool;
  superpose_detour_on_parent_fw_spec : bool;
  fw_spec_to_exclude : list string + excl;
  stored_data : bool;
  output : option string;
  dict_mod : string;
  propagate : bool;
  store_stdlog : bool;
  stdlog : string;      (* what the log stream holds when the task ends *)
  recover_ft : value;   (* [self.to_dict()], the task as embedded in a node *)
}.

(** [{k: True for k in fw_spec_to_exclude}], or the dictionary itself *)
Definition fw_spec_to_exclude_dict (p : params) : excl :=
  match fw_spec_to_exclude p with
  | inl l => EDict (list_to_map ((λ k, (k, EMark true)) <$> l))
  | inr e => e
  end.

Definition default_fw_spec_to_exclude : list string :=
  ["_job_info"; "_fw_env"; "_files_prev"; "_fizzled_parents"]%string.

Definition curdir : string := ".".

(** Lines 626-657: one destination per restart glob pattern. *)
Definition glob_patterns (p : params) : list string :=
  match restart_file_glob_patterns p with
  | inl s => [s]
  | inr l => l
  end.

Definition file_dests (p : params) : list string :=
  let patterns := glob_patterns p in
  let dests0 : string + list string :=
    match restart_file_dests p with
    | None | Some (inl EmptyString) | Some (inr []) => inl curdir
    | Some d => d
    end in
  let dests1 := match dests0 with inl s => [s] | inr l => l end in
  let dests2 :=
    if bool_decide (length dests1 = 1%nat)
    then concat (replicate (length patterns) dests1)
    else dests1 in
  if bool_decide (1 < length dests2)%nat
     && negb (bool_decide (length patterns = length dests2))
  then replicate (length patterns) curdir
  else dests2.

(** Lines 662-698: the previous job's record, the directory it ran in, and
    the flag [recover].  [VNone] stands for Python's [None]. *)
Definition classify (fw_spec : gmap string value) : result (value * value * bool) :=
  match fw_spec !! "_job_info" with
  | Some job_info_array =>
      prev_job_info ← Py.getitem_last job_info_array;
      path_prefix ← Py.getitem prev_job_info "launch_dir";
      _ ← Py.getitem prev_job_info "name";
      _ ← Py.getitem prev_job_info "fw_id";
      Ok (prev_job_info, path_prefix, true)
  | None =>
      match fw_spec !! "_fizzled_parents" with
      | Some fizzled_parents_array =>
          prev_job_info ← Py.getitem_last fizzled_parents_array;
          launches ← Py.getitem prev_job_info "launches";
          launch ← Py.getitem_last launches;
          path_prefix ← Py.getitem launch "launch_dir";
          _ ← Py.getitem prev_job_info "name";
          _ ← Py.getitem prev_job_info "fw_id";
          Ok (prev_job_info, path_prefix, true)
      | None => Ok (VNone, VNone, false)
      end
  end.

Fixpoint chars (s : string) : list string :=
  match s with
  | EmptyString => []
  | String c s' => String c EmptyString :: chars s'
  end.

(** The strings met by [for other_glob_pattern in other_glob_patterns]
    (a non-iterable is wrapped in a list, non-strings are skipped). *)
Definition other_patterns (v : value) : list string :=
  match v with
  | VStr s => chars s
  | VList l => omap (λ x, match x with VStr s => Some s | _ => None end) l
  | VDict d => (map_to_list d).*1
  | _ => []
  end.

(** [sorted(l, key=os.path.getmtime)]: a stable sort *)
Fixpoint insert_by (key : string → Z) (x : string) (l : list string) : list string :=
  match l with
  | [] => [x]
  | y :: l' => if bool_decide (key x ≤ key y) then x :: l else y :: insert_by key x l'
  end.

Definition sorted_by (key : string → Z) (l : list string) : list string :=
  foldr (insert_by key) [] l.

(** The order [sorted] leaves its result in. *)
Definition le_key (key : string → Z) (a b : string) : Prop := key a ≤ key b.

(** [sorted(files)[-1]] *)
Definition last_sorted (files : list string) : option string :=
  foldr (λ f acc,
      match acc with
      | None => Some f
      | Some g => if String.ltb g f then Some f else Some g
      end) None files.

Section with_engine.
Context `{Engine}.

(** Lines 703-730: forward the other files. *)
Definition forward_other_files (p : params) (path_prefix : value) : result unit :=
  file_list ← Py.foldM (λ acc pat,
      fs ← glob_under path_prefix (VStr pat); Ok (acc ++ fs))
    (other_patterns (other_glob_patterns p)) [];
  Py.foldM (λ _ f,
      match shutil_copy f getcwd with
      | Ok _ => Ok ()
      | Raise e => if ignore_errors p then Ok () else Raise e
      end) file_list ().

(** Lines 737-767, one turn of the loop: what a glob pattern contributes to
    [restart_file_list]. *)
Definition select_restart_file (p : params) (path_prefix : value)
    (glob_pattern dest : string) : result (list (string * string)) :=
  restart_file_matches ← glob_under path_prefix (VStr glob_pattern);
  match restart_file_matches with
  | _ :: _ :: _ =>
      match last (sorted_by getmtime restart_file_matches) with
      | Some f => Ok [(f, dest)]
      | None => Raise IndexError
      end
  | [f] => Ok [(f, dest)]
  | [] => if fizzle_on_no_restart_file p then Raise ValueError else Ok []
  end.

(** Lines 732-767: [restart_file_list]. *)
Definition find_restart_files (p : params) (path_prefix : value)
  : result (list (string * string)) :=
  Py.foldM (λ restart_file_list (pd : string * string),
      sel ← select_restart_file p path_prefix pd.1 pd.2;
      Ok (restart_file_list ++ sel))
    (zip (glob_patterns p) (file_dests p)) [].

(** Lines 769-781: copy the restart files; a failure is fatal. *)
Definition copy_restart_files (l : list (string * string)) : result unit :=
  Py.foldM (λ _ (fd : string * string), shutil_copy fd.1 fd.2) l ().

(** [appendable_wf_from_dict]  (lines 429-477).  [next] is
    [self.consecutive_fw_id]; its new value is returned with the workflow. *)
Definition merge_base (base_spec : value) (exclusions : excl) (fw_dict : value)
  : result value :=
  match fw_dict with
  | VDict d =>
      sp ← Py.getitem fw_dict "spec";
      m ← Merge.dict_merge_values base_spec sp true exclusions no_excl;
      Ok (VDict (<["spec" := VDict m]> d))
  | _ => Raise TypeError
  end.

Definition renumber (next : Z) (wf : Workflow) : Workflow * Z :=
  let '(remapped, nodes, next') :=
    foldl (λ (acc : gmap Z Z * gmap Z Firework * Z) (kf : Z * Firework),
        let '(remapped, nodes, n) := acc in
        (<[fw_id kf.2 := n]> remapped, <[kf.1 := set_fw_id kf.2 n]> nodes, n - 1))
      (∅, id_fw wf, next) (map_to_list (id_fw wf)) in
  (reassign_ids remapped (mkWorkflow nodes (links wf)), next').

Definition appendable_wf_from_dict (next : Z) (obj_dict base_spec : value)
    (exclusions : excl) : result (Workflow * Z) :=
  match obj_dict with
  | VDict obj =>
      if bool_decide (is_Some (obj !! "spec")) then
        obj' ← (if Py.truthy base_spec
                then o ← merge_base base_spec exclusions obj_dict;
                     match o with VDict d => Ok d | _ => Raise TypeError end
                else Ok obj);
        fw ← Firework_from_dict obj';
        Ok (single (set_fw_id fw next), next - 1)
      else
        obj' ← (if Py.truthy base_spec then
                  fw_dicts ← Py.getitem obj_dict "fws";
                  match fw_dicts with
                  | VList l =>
                      l' ← Py.mapM (merge_base base_spec exclusions) l;
                      Ok (<["fws" := VList l']> obj)
                  | VStr EmptyString => Ok obj
                  | VDict d => if bool_decide (d = ∅) then Ok obj else Raise TypeError
                  | _ => Raise TypeError
                  end
                else Ok obj);
        wf ← Workflow_from_dict obj';
        Ok (renumber next wf)
  | _ => Raise ValueError
  end.

(** [write_files_prev]  (lines 496-521) *)
Definition write_files_prev (wf : option Workflow) (fw_spec : gmap string value)
  : result (option Workflow) :=
  match fw_spec !! "_files_out" with
  | None => Ok wf
  | Some files_out =>
      if negb (Py.truthy files_out) then Ok wf else
      items ← match files_out with
              | VDict d => Ok (map_to_list d)
              | _ => Raise AttributeError
              end;
      files_prev ← Py.foldM (λ (fp : gmap string value) (kv : string * value),
          files ← glob_under (VStr curdir) kv.2;
          match last_sorted files with
          | Some filepath => Ok (<[kv.1 := VStr filepath]> fp)
          | None => Ok fp
          end) items ∅;
      match wf with
      | None => Raise AttributeError
      | Some w =>
          w' ← for_each_fw (λ fw,
              roots ← root_wf_ids w;
              Ok (if bool_decide (fw_id fw ∈ roots)
                  then set_spec fw (<["_files_prev" := VDict files_prev]> (spec fw))
                  else fw)) w;
          Ok (Some w')
      end
  end.

(** Lines 792-799, 843-850 and 933-940: the previous job's spec as the base
    spec of a fragment, [None] when superposition is off or the record holds
    no spec. *)
Definition parent_base_spec (superpose : bool) (prev_job_info : value)
  : result value :=
  if superpose then
    b ← Py.contains prev_job_info "spec";
    if b : bool then Py.getitem prev_job_info "spec" else Ok VNone
  else Ok VNone.

(** Lines 790-802: the detour fragment. *)
Definition build_detour (p : params) (next : Z) (prev_job_info : value)
  : result (option Workflow * Z) :=
  match detour_wf p with
  | VDict _ =>
      base ← parent_base_spec (superpose_detour_on_parent_fw_spec p) prev_job_info;
      wn ← appendable_wf_from_dict next (detour_wf p) base (fw_spec_to_exclude_dict p);
      Ok (Some wn.1, wn.2)
  | _ => Ok (None, next)
  end.

(** [int(v)] *)
Definition py_int (v : value) : result Z :=
  match v with
  | VInt z => Ok z
  | VBool b => Ok (if b then 1 else 0)
  | VStr s => int_of_str s
  | _ => Raise TypeError
  end.

(** Lines 811-835: the restart count of this attempt.  Both lookups read
    [prev_job_info['spec']]. *)
Definition restart_count_of (prev_job_info : value) (counter : string)
  : result Z :=
  let lookup :=
    except_KeyError
      (sp ← Py.getitem prev_job_info "spec"; get_nested_dict_value sp counter)
      VNone in
  c1 ← (if Py.truthy prev_job_info then
          b ← Py.contains prev_job_info "spec";
          if b : bool then lookup else Ok VNone
        else Ok VNone);
  c2 ← match c1 with
       | VNone => lookup
       | _ => Ok c1
       end;
  match c2 with
  | VNone => Ok 0
  | _ => n ← py_int c2; Ok (n + 1)
  end.

(** The count of an attempt as the spec words it (section 4.5, restart-count
    policy): the counter read from the previous job's spec if present, else
    from the current job's own spec, 0 if absent, incremented by 1.  It is
    compared with [restart_count_of] below. *)
Definition spec_incremented_count (prev_job_info : value)
    (fw_spec : gmap string value) (counter : string) : result Z :=
  c1 ← except_KeyError
         (sp ← Py.getitem prev_job_info "spec"; get_nested_dict_value sp counter)
         VNone;
  c2 ← match c1 with
       | VNone => except_KeyError (get_nested_dict_value (VDict fw_spec) counter) VNone
       | _ => Ok c1
       end;
  n ← match c2 with
      | VNone => Ok 0
      | _ => py_int c2
      end;
  Ok (n + 1).

(** Lines 856-858: write the count into every node of the fragment. *)
Definition inject_counter (counter : string) (count : Z) (wf : Workflow)
  : result Workflow :=
  for_each_fw (λ fw,
      sp ← set_nested_dict_value (spec fw) counter (VInt count);
      Ok (set_spec fw sp)) wf.

(** Lines 811-862: the restart fragment, built when the count allows it. *)
Definition build_restart (p : params) (next : Z) (prev_job_info : value)
  : result (option (Workflow * Z)) :=
  restart_count ← restart_count_of prev_job_info (restart_counter p);
  if bool_decide (restart_count < max_restarts p + 1) then
    base ← parent_base_spec (superpose_restart_on_parent_fw_spec p) prev_job_info;
    wn ← appendable_wf_from_dict next (restart_wf p) base (fw_spec_to_exclude_dict p);
    wf ← inject_counter (restart_counter p) restart_count wn.1;
    Ok (Some (wf, wn.2))
  else Ok None.

(** Line 872: the spec handed to the repeated recovery node. *)
Definition recover_fw_spec (p : params) (fw_spec : gmap string value)
  : result (gmap string value) :=
  Merge.dict_merge ∅ fw_spec true (fw_spec_to_exclude_dict p) no_excl.

(** Lines 900-903: detour and restart fragment as one workflow. *)
Definition merge_insertions (detour : option Workflow) (restart : Workflow)
  : result Workflow :=
  match detour with
  | Some d => append_wf d restart []
  | None => Ok restart
  end.

(** Lines 905-917: the repeated recovery node, child of every leaf. *)
Definition recover_fw (p : params) (next : Z) (sp : gmap string value)
  : Firework :=
  new_Firework (VList [recover_ft p]) sp (repeated_recover_fw_name p) next.

Definition append_recover_fw (p : params) (next : Z) (sp : gmap string value)
    (wf : Workflow) : result (Workflow * Z) :=
  wf' ← append_wf wf (single (recover_fw p next sp)) (leaf_fw_ids wf);
  Ok (wf', next - 1).

(** Lines 810-929: the branch [if recover]. *)
Definition recover_stage (p : params) (next : Z) (prev_job_info : value)
    (fw_spec : gmap string value) (detour : option Workflow)
  : result (option Workflow * Z) :=
  r ← build_restart p next prev_job_info;
  dn ← match r with
       | Some (restart, n) =>
           sp ← recover_fw_spec p fw_spec;
           merged ← merge_insertions detour restart;
           wn ← append_recover_fw p n sp merged;
           Ok (Some wn.1, wn.2)
       | None => Ok (detour, next)
       end;
  wf ← write_files_prev dn.1 fw_spec;
  Ok (wf, dn.2).

(** Lines 931-944: the addition fragment. *)
Definition build_addition (p : params) (next : Z) (prev_job_info : value)
    (fw_spec : gmap string value) : result (option Workflow * Z) :=
  match addition_wf p with
  | VDict _ =>
      base ← parent_base_spec (superpose_addition_on_parent_fw_spec p) prev_job_info;
      wn ← appendable_wf_from_dict next (addition_wf p) base (fw_spec_to_exclude_dict p);
      wf ← write_files_prev (Some wn.1) fw_spec;
      Ok (wf, wn.2)
  | _ => Ok (None, next)
  end.

(** Lines 947-975: the action. *)
Definition emit_action (p : params) (addition detour : option Workflow)
  : result FWAction :=
  let out : value :=
    VDict (if store_stdlog p then {["stdlog" := VStr (stdlog p)]} else ∅) in
  let mods : list value :=
    match output p with
    | Some (String c k) =>
        [VDict {[dict_mod p := VDict {[String c k := out]}]}]
    | _ => []
    end in
  let fw_action :=
    mkFWAction (if stored_data p then out else VDict ∅) ∅ mods (propagate p) [] [] in
  addition' ←
    match addition with
    | Some a =>
        if apply_mod_spec_to_addition_wf p
        then r ← Propagate.apply_mod_spec a fw_action; Ok (Some r.1)
        else Ok (Some a)
    | None => Ok None
    end;
  detour' ←
    match detour with
    | Some d =>
        if apply_mod_spec_to_detour_wf p
        then r ← Propagate.apply_mod_spec d fw_action; Ok (Some r.1)
        else Ok (Some d)
    | None => Ok None
    end;
  Ok (mkFWAction (Wf.stored_data fw_action) ∅ mods (propagate p)
        (option_list addition') (option_list detour')).

(** [run_task]  (lines 524-975) *)
Definition run_task (p : params) (fw_spec : gmap string value) : result FWAction :=
  let consecutive_fw_id := -1 in
  c ← classify fw_spec;
  let '(prev_job_info, path_prefix, recover) := c : value * value * bool in
  _ ← (if recover then
         _ ← forward_other_files p path_prefix;
         restart_file_list ← find_restart_files p path_prefix;
         copy_restart_files restart_file_list
       else Ok ());
  dn ← build_detour p consecutive_fw_id prev_job_info;
  dn ← (if recover then recover_stage p dn.2 prev_job_info fw_spec dn.1
        else Ok dn);
  an ← build_addition p dn.2 prev_job_info fw_spec;
  emit_action p an.1 dn.1.

End with_engine.
End Task.

(** ** A reference engine

    A small instance of [Engine], used to run the task on concrete inputs:
    nested paths are ["->"]-separated, the only spec modifier is [_set],
    the file system is a table of glob results and time stamps, and copying
    always succeeds. *)

Module Reference.
Import Wf.

Fixpoint split_arrow (s cur : string) : list string :=
  match s with
  | EmptyString => [cur]
  | String "-"%char (String ">"%char rest) => cur :: split_arrow rest EmptyString
  | String c rest => split_arrow rest (cur +:+ String c EmptyString)
  end.

Fixpoint get_path (v : value) (path : list string) : result value :=
  match path with
  | [] => Ok v
  | k :: rest => x ← Py.getitem v k; get_path x rest
  end.

Fixpoint set_path (d : gmap string value) (path : list string) (v : value)
  : result (gmap string value) :=
  match path with
  | [] => Ok d
  | [k] => Ok (<[k := v]> d)
  | k :: rest =>
      match d !! k with
      | None => sub ← set_path ∅ rest v; Ok (<[k := VDict sub]> d)
      | Some (VDict sub0) => sub ← set_path sub0 rest v; Ok (<[k := VDict sub]> d)
      | Some _ => Raise TypeError
      end
  end.

Definition set_mod (md : value) (sp : gmap string value)
  : result (gmap string value) :=
  match md with
  | VDict ops =>
      match ops !! "_set" with
      | Some (VDict kv) =>
          Py.foldM (λ sp (p : string * value),
              set_path sp (split_arrow p.1 EmptyString) p.2)
            (map_to_list kv) sp
      | _ => Raise ValueError
      end
  | _ => Raise ValueError
  end.

Fixpoint digits (s : string) (acc : Z) : option Z :=
  match s with
  | EmptyString => Some acc
  | String c s' =>
      let n := Z.of_nat (nat_of_ascii c) in
      if bool_decide (48 ≤ n ≤ 57) then digits s' (10 * acc + (n - 48)) else None
  end.

Definition parse_int (s : string) : option Z :=
  match s with
  | EmptyString => None
  | String "-"%char (String c s') => Z.opp <$> digits (String c s') 0
  | _ => digits s 0
  end.

Definition fw_of_dict (m : gmap string value) : result Firework :=
  match m !! "spec" with
  | Some (VDict sp) =>
      Ok (mkFirework
            (match m !! "fw_id" with Some (VInt i) => i | _ => -1 end)
            sp (default VNone (m !! "name")) (default (VList []) (sp !! "_tasks")))
  | Some _ => Raise TypeError
  | None => Raise KeyError
  end.

Definition ids_of (v : value) : result (list Z) :=
  match v with
  | VList l => Py.mapM (λ x, match x with VInt i => Ok i | _ => Raise TypeError end) l
  | _ => Raise TypeError
  end.

Definition wf_of_dict (m : gmap string value) : result Workflow :=
  match m !! "fws", m !! "links" with
  | Some (VList l), Some (VDict lk) =>
      nodes ← Py.mapM (λ x, match x with
                             | VDict d => fw_of_dict d
                             | _ => Raise TypeError
                             end) l;
      lnk ← Py.foldM (λ (acc : gmap Z (list Z)) (p : string * value),
          match parse_int p.1 with
          | Some i => c ← ids_of p.2; Ok (<[i := c]> acc)
          | None => Raise ValueError
          end) (map_to_list lk) ∅;
      Ok (mkWorkflow (list_to_map ((λ fw, (fw_id fw, fw)) <$> nodes))
            (lnk ∪ list_to_map ((λ fw, (fw_id fw, [])) <$> nodes)))
  | _, _ => Raise KeyError
  end.

(** A file system: the matches of each (prefix, pattern), the time stamps. *)
Record files := mkFiles {
  matches : list (string * string * list string);
  mtimes : list (string * Z);
}.

Definition table_glob (fs : files) (prefix pattern : value)
  : result (list string) :=
  match prefix, pattern with
  | VStr a, VStr b =>
      Ok (default [] ((list_to_map (matches fs) : gmap (string * string) (list string))
                        !! (a, b)))
  | _, _ => Raise TypeError
  end.

Definition table_mtime (fs : files) (f : string) : Z :=
  default 0 ((list_to_map (mtimes fs) : gmap string Z) !! f).

Definition engine (fs : files) : Engine := {|
  get_nested_dict_value v key := get_path v (split_arrow key EmptyString);
  set_nested_dict_value d key v := set_path d (split_arrow key EmptyString) v;
  apply_mod := set_mod;
  Firework_from_dict := fw_of_dict;
  Workflow_from_dict := wf_of_dict;
  root_wf_ids wf := Ok (root_fw_ids wf);
  glob_under := table_glob fs;
  getmtime := table_mtime fs;
  shutil_copy _ _ := Ok ();
  getcwd := "/cwd";
  int_of_str s := match parse_int s with Some z => Ok z | None => Raise ValueError end;
|}.

Definition no_files : files := mkFiles [] [].

End Reference.

(** ** Invariants of fragments and concrete scenarios *)

Module Scenario.
Import Wf Task.

(** A fragment as [appendable_wf_from_dict] leaves it: every node is stored
    under its own identifier and has an adjacency entry. *)
Definition well_formed (wf : Workflow) : Prop :=
  (∀ k fw, id_fw wf !! k = Some fw → fw_id fw = k)
  ∧ dom (links wf) = dom (id_fw wf).

(** The identifiers of a new fragment are negative. *)
Definition fresh (wf : Workflow) : Prop :=
  ∀ k, is_Some (id_fw wf !! k) → k < 0.

(** There is an edge from [a] to [b]. *)
Definition edge (wf : Workflow) (a b : Z) : Prop :=
  ∃ children, links wf !! a = Some children ∧ b ∈ children.

(** A single-node fragment description. *)
Definition fw_dict (nm : string) : value :=
  VDict {["spec" := VDict {["_tasks" := VList []]}; "name" := VStr nm]}.

(** A task with a restart and a detour fragment and the default options. *)
Definition recovery : params :=
  mkParams (fw_dict "restart") (fw_dict "detour") VNone
    true true true true 5 VNone (VStr "recover") "restart_count"
    (inr ["*.restart[0-9]"%string]) None
    false false false (inl default_fw_spec_to_exclude)
    false None "_set" false false "" (VDict {["_fw_name" := VStr "RecoverLammpsTask"]}).

(** The same task, asked to superpose the detour on the parent's spec. *)
Definition superposing : params :=
  mkParams (fw_dict "restart") (fw_dict "detour") VNone
    true true true true 5 VNone (VStr "recover") "restart_count"
    (inr ["*.restart[0-9]"%string]) None
    false false true (inl default_fw_spec_to_exclude)
    false None "_set" false false "" (VDict {["_fw_name" := VStr "RecoverLammpsTask"]}).

(** The same task, allowed no repeated restart. *)
Definition single_shot : params :=
  mkParams (fw_dict "restart") (fw_dict "detour") VNone
    true true true true 0 VNone (VStr "recover") "restart_count"
    (inr ["*.restart[0-9]"%string]) None
    false false false (inl default_fw_spec_to_exclude)
    false None "_set" false false "" (VDict {["_fw_name" := VStr "RecoverLammpsTask"]}).

(** The record of a fizzled parent that ran in [/prev] with spec [sp]. *)
Definition fizzled_parent (sp : gmap string value) : value :=
  VDict {["spec" := VDict sp; "name" := VStr "run"; "fw_id" := VInt 7;
          "launches" := VList [VDict {["launch_dir" := VStr "/prev"]}]]}.

(** The previous job left [job.restart3] and, later, [job.restart7]. *)
Definition prev_files : Reference.files :=
  Reference.mkFiles
    [("/prev", "*.restart[0-9]", ["/prev/job.restart3"; "/prev/job.restart7"])]%string
    [("/prev/job.restart3"%string, 100); ("/prev/job.restart7"%string, 200)].

(** A job whose parent fizzled at restart count 2. *)
Definition spec_count_2 : gmap string value :=
  {["_fizzled_parents" := VList [fizzled_parent {["restart_count" := VInt 2]}];
    "x" := VInt 1]}.

(** A job whose parent fizzled at restart count 5, the maximum. *)
Definition spec_count_5 : gmap string value :=
  {["_fizzled_parents" := VList [fizzled_parent {["restart_count" := VInt 5]}]]}.

(** A job recovering for the first time: no counter in the parent's spec,
    none in its own. *)
Definition spec_no_counter : gmap string value :=
  {["_fizzled_parents" := VList [fizzled_parent ∅]]}.

(** A job whose parent's spec holds no counter while its own spec holds 3. *)
Definition spec_own_count_3 : gmap string value :=
  {["_fizzled_parents" := VList [fizzled_parent ∅]; "restart_count" := VInt 3]}.

(** A job without any record of a previous job. *)
Definition spec_no_parent : gmap string value := {["x" := VInt 1]}.

Definition node (i : Z) : Firework := mkFirework i ∅ VNone (VList []).

(** root (-1) → {A (-2), B (-3)} → leaf (-4) *)
Definition diamond : Workflow :=
  mkWorkflow {[-1 := node (-1); -2 := node (-2); -3 := node (-3); -4 := node (-4)]}
    {[-1 := [-2; -3]; -2 := [-4]; -3 := [-4]; -4 := []]}.

Definition set_x : value := VDict {["_set" := VDict {["x" := VInt 1]}]}.

Definition mod_action : FWAction := mkFWAction (VDict ∅) ∅ [set_x] true [] [].
Definition update_action : FWAction :=
  mkFWAction (VDict ∅) {["x" := VInt 1]} [] true [] [].

(** The reference engine over the previous job's directory. *)
Definition prev_engine : Engine := Reference.engine prev_files.

(** Observations on the detour workflow of a returned action. *)
Definition the_detour (r : result FWAction) : option Workflow :=
  match r with
  | Ok a => match detours a with [wf] => Some wf | _ => None end
  | Raise _ => None
  end.

Definition nodes_of (r : result FWAction) : option (list Z) :=
  wf ← the_detour r; Some (map_to_list (id_fw wf)).*1.

Definition children_of (r : result FWAction) (i : Z) : option (list Z) :=
  wf ← the_detour r; links wf !! i.

Definition name_of (r : result FWAction) (i : Z) : option value :=
  wf ← the_detour r; fw ← id_fw wf !! i; Some (name fw).

Definition spec_entry_of (r : result FWAction) (i : Z) (key : string)
  : option value :=
  wf ← the_detour r; fw ← id_fw wf !! i; spec fw !! key.

End Scenario.

(** ** Further scenarios *)

Module More.
Import Wf Task Scenario.

(** The identifiers of [wf] are exactly the integers in [(lo, hi]]. *)
Definition ids_fill (wf : Workflow) (lo hi : Z) : Prop :=
  ∀ j, is_Some (id_fw wf !! j) ↔ lo < j ≤ hi.

(** [nodes'] holds the nodes of [nodes], under the same keys, with nothing
    but their specs changed. *)
Definition spec_only (nodes nodes' : gmap Z Firework) : Prop :=
  ∀ k, match nodes !! k with
       | Some fw => ∃ sp, nodes' !! k = Some (set_spec fw sp)
       | None => nodes' !! k = None
       end.

(** A deserializer that, like the engine's [Workflow] constructor, refuses a
    description whose links do not match its nodes. *)
Definition checked_wf_of_dict (m : gmap string value) : result Workflow :=
  wf ← Reference.wf_of_dict m;
  if bool_decide (dom (links wf) = dom (id_fw wf)) then Ok wf else Raise ValueError.

Definition checked_engine : Engine := {|
  get_nested_dict_value := get_nested_dict_value (Engine := prev_engine);
  set_nested_dict_value := set_nested_dict_value (Engine := prev_engine);
  apply_mod := apply_mod (Engine := prev_engine);
  Firework_from_dict := Firework_from_dict (Engine := prev_engine);
  Workflow_from_dict := checked_wf_of_dict;
  root_wf_ids := root_wf_ids (Engine := prev_engine);
  glob_under := glob_under (Engine := prev_engine);
  getmtime := getmtime (Engine := prev_engine);
  shutil_copy := shutil_copy (Engine := prev_engine);
  getcwd := getcwd (Engine := prev_engine);
  int_of_str := int_of_str (Engine := prev_engine);
|}.

(** A two-node fragment description: node 1 with child 2. *)
Definition chain_dict : value :=
  VDict {["fws" := VList
            [VDict {["spec" := VDict {["_tasks" := VList []]}; "fw_id" := VInt 1;
                     "name" := VStr "first"]};
             VDict {["spec" := VDict {["_tasks" := VList []]}; "fw_id" := VInt 2;
                     "name" := VStr "second"]}];
          "links" := VDict {["1" := VList [VInt 2]; "2" := VList []]}]}.

(** The diamond's action without the propagation flag. *)
Definition direct_mod_action : FWAction := mkFWAction (VDict ∅) ∅ [set_x] false [] [].

(** A task with a restart fragment only. *)
Definition restart_only : params :=
  mkParams (fw_dict "restart") VNone VNone
    true true true true 5 VNone (VStr "recover") "restart_count"
    (inr ["*.restart[0-9]"%string]) None
    false false false (inl default_fw_spec_to_exclude)
    false None "_set" false false "" (VDict {["_fw_name" := VStr "RecoverLammpsTask"]}).

(** A task with a detour and no restart fragment. *)
Definition detour_only : params :=
  mkParams VNone (fw_dict "detour") VNone
    true true true true 5 VNone (VStr "recover") "restart_count"
    (inr ["*.restart[0-9]"%string]) None
    false false false (inl default_fw_spec_to_exclude)
    false None "_set" false false "" (VDict {["_fw_name" := VStr "RecoverLammpsTask"]}).

(** A job at the maximum restart count that declares an output file. *)
Definition spec_count_5_files_out : gmap string value :=
  {["_fizzled_parents" := VList [fizzled_parent {["restart_count" := VInt 5]}];
    "_files_out" := VDict {["log" := VStr "log.*"]}]}.

(** A task with two restart patterns and a destination for each. *)
Definition two_patterns : params :=
  mkParams (fw_dict "restart") VNone VNone
    true true true true 5 VNone (VStr "recover") "restart_count"
    (inr ["*.restart[0-9]"; "*.chk"]%string) (Some (inr ["in.restart"; "in.chk"]%string))
    false false false (inl default_fw_spec_to_exclude)
    false None "_set" false false "" (VDict ∅).

(** The previous job's directory with a restart file and a checkpoint. *)
Definition two_kinds : Reference.files :=
  Reference.mkFiles
    [("/prev", "*.restart[0-9]", ["/prev/job.restart3"; "/prev/job.restart7"]);
     ("/prev", "*.chk", ["/prev/job.chk"])]%string
    [("/prev/job.restart3"%string, 100); ("/prev/job.restart7"%string, 200)].

(** An engine over the same directory whose every copy fails. *)
Definition readonly_engine : Engine := {|
  get_nested_dict_value := get_nested_dict_value (Engine := prev_engine);
  set_nested_dict_value := set_nested_dict_value (Engine := prev_engine);
  apply_mod := apply_mod (Engine := prev_engine);
  Firework_from_dict := Firework_from_dict (Engine := prev_engine);
  Workflow_from_dict := Workflow_from_dict (Engine := prev_engine);
  root_wf_ids := root_wf_ids (Engine := prev_engine);
  glob_under := glob_under (Engine := prev_engine);
  getmtime := getmtime (Engine := prev_engine);
  shutil_copy := λ _ _, Raise OSError;
  getcwd := getcwd (Engine := prev_engine);
  int_of_str := int_of_str (Engine := prev_engine);
|}.

(** A task that also forwards the restart files as other files. *)
Definition forwarding : params :=
  mkParams (fw_dict "restart") VNone VNone
    true true false true 5 (VList [VStr "*.restart[0-9]"]) (VStr "recover")
    "restart_count" (inr ["*.none"%string]) None
    false false false (inl default_fw_spec_to_exclude)
    false None "_set" false false "" (VDict ∅).

(** A job that holds a handed-down record and a fizzled parent. *)
Definition spec_both_records : gmap string value :=
  {["_job_info" := VList [VDict {["launch_dir" := VStr "/handed"; "name" := VStr "pre";
                                  "fw_id" := VInt 3]}];
    "_fizzled_parents" := VList [fizzled_parent ∅]]}.

(** The record of a previous job that holds no spec. *)
Definition record_without_spec : gmap string value :=
  {["name" := VStr "run"; "fw_id" := VInt 7]}.

(** A parent's spec with the engine's environment, a dictionary. *)
Definition parent_spec_with_env : gmap string value :=
  {["_fw_env" := VDict {["scratch" := VStr "/tmp"]}; "x" := VInt 1]}.

End More.

(** * Properties *)

(** ** Properties of [dict_merge] *)

Module MergeFacts.
Import Merge.

#[local] Arguments dict_merge_rec : simpl never.

Lemma bind_Ok {A B} (r : result A) (f : A → result B) b :
  (x ← r; f x) = Ok b ↔ ∃ a, r = Ok a ∧ f a = Ok b.
Proof.
  unfold mbind, result_bind. destruct r as [a|e].
  - split; [eauto | by intros (? & [= ->] & ?)].
  - split; [done | by intros (? & [=] & ?)].
Qed.

Lemma is_Ok_true {A} (r : result A) : is_Ok r ↔ ∃ a, r = Ok a.
Proof.
  destruct r; simpl; split; eauto; try done.
  by intros [? [=]].
Qed.

Lemma cells_lookup (dct merge_dct : gmap string value) add ex mex k :
  map_imap (λ k c, Some (c k))
      (merge (λ dk mk : option value, Some (λ k : string,
          merge_entry add ex mex k dk mk (self_at add dk))) dct merge_dct) !! k
  = match dct !! k, merge_dct !! k with
    | None, None => None
    | _, _ => Some (entry_of dct merge_dct add ex mex k)
    end.
Proof.
  rewrite map_lookup_imap, lookup_merge. unfold entry_of.
  by destruct (dct !! k), (merge_dct !! k).
Qed.

Lemma entry_of_absent (dct merge_dct : gmap string value) add ex mex k :
  dct !! k = None → merge_dct !! k = None →
  entry_of dct merge_dct add ex mex k = Ok None.
Proof. unfold entry_of, merge_entry. intros -> ->. by destruct add. Qed.

Lemma dict_merge_unfold (dct merge_dct : gmap string value) add ex mex :
  dict_merge dct merge_dct add (EDict ex) mex =
  collect (map_imap (λ k c, Some (c k))
      (merge (λ dk mk : option value, Some (λ k : string,
          merge_entry add ex mex k dk mk (self_at add dk))) dct merge_dct)).
Proof. reflexivity. Qed.

(** [dict_merge] returns [r] exactly when every key's entry evaluates to
    what [r] holds at that key. *)
Lemma dict_merge_Ok (dct merge_dct : gmap string value) add ex mex r :
  dict_merge dct merge_dct add (EDict ex) mex = Ok r ↔
  ∀ k, entry_of dct merge_dct add ex mex k = Ok (r !! k).
Proof.
  rewrite dict_merge_unfold. unfold collect.
  set (rs := map_imap _ _).
  assert (Hrs : ∀ k, rs !! k = match dct !! k, merge_dct !! k with
                                | None, None => None
                                | _, _ => Some (entry_of dct merge_dct add ex mex k)
                                end) by (intros; apply cells_lookup).
  clearbody rs. split.
  - case_decide as Hall; [|done]. intros [= <-] k.
    rewrite lookup_omap, Hrs.
    pose proof (Hall k (entry_of dct merge_dct add ex mex k)) as Hk.
    rewrite Hrs in Hk.
    destruct (dct !! k) as [x|] eqn:Hd, (merge_dct !! k) as [y|] eqn:Hm; simpl;
      try (by rewrite entry_of_absent).
    all: specialize (Hk eq_refl);
      by destruct (entry_of dct merge_dct add ex mex k).
  - intros Hall. rewrite decide_True.
    + f_equal. apply map_eq; intros k. rewrite lookup_omap, Hrs.
      pose proof (Hall k) as Hk.
      destruct (dct !! k) eqn:Hd, (merge_dct !! k) eqn:Hm; simpl;
        try (by rewrite Hk).
      rewrite entry_of_absent in Hk by done. by injection Hk.
    + intros k x. rewrite Hrs. pose proof (Hall k) as Hk.
      destruct (dct !! k), (merge_dct !! k); intros [= <-]; by rewrite Hk.
Qed.

(** When no key raises, the call returns. *)
Lemma dict_merge_total (dct merge_dct : gmap string value) add ex mex :
  (∀ k, is_Ok (entry_of dct merge_dct add ex mex k)) →
  ∃ r, dict_merge dct merge_dct add (EDict ex) mex = Ok r.
Proof.
  intros Hall.
  set (rs := map_imap (λ k c, Some (c k))
      (merge (λ dk mk : option value, Some (λ k : string,
          merge_entry add ex mex k dk mk (self_at add dk))) dct merge_dct)).
  exists (omap (λ r, match r with Ok o => o | Raise _ => None end) rs).
  rewrite dict_merge_unfold. unfold collect. fold rs.
  rewrite decide_True; [done|].
  intros k x. unfold rs. rewrite cells_lookup.
  destruct (dct !! k), (merge_dct !! k); intros [= <-]; apply Hall.
Qed.

Lemma depth_lookup (d : gmap string value) k v :
  d !! k = Some v → (depth v < depth (VDict d))%nat.
Proof.
  simpl. revert k v.
  apply (map_fold_weak_ind
    (λ r (m : gmap string value), ∀ k v, m !! k = Some v → (depth v < S r)%nat)).
  - intros k v. by rewrite lookup_empty.
  - intros i x m r Hi IH k v. rewrite lookup_insert. case_decide as Hk.
    + intros [= ->]. lia.
    + intros Hv. specialize (IH _ _ Hv). lia.
Qed.

(** With default options and no exclusions, a merge of [A] onto itself is
    computed entry by entry from equal entries. *)
Lemma dict_merge_self_depth (n : nat) :
  ∀ A : gmap string value, (depth (VDict A) ≤ n)%nat →
    dict_merge A A true no_excl no_excl = Ok A.
Proof.
  induction n as [|n IH]; intros A Hn; [simpl in Hn; lia|].
  apply dict_merge_Ok. intros k. unfold entry_of, merge_entry.
  rewrite lookup_empty. simpl.
  destruct (A !! k) as [v|] eqn:Hk; [|done].
  assert (Hv : (depth v ≤ n)%nat) by (apply depth_lookup in Hk; lia).
  destruct v as [| [|] | | | |d]; rewrite ?lookup_empty; try done.
  simpl. change (dict_merge_rec (VDict d) d true no_excl no_excl)
    with (dict_merge d d true no_excl no_excl).
  by rewrite (IH d Hv).
Qed.

(** Without exclusions of either kind, [dict_merge] raises on no input. *)
Lemma dict_merge_plain_total (n : nat) :
  ∀ (A B : gmap string value) add, (depth (VDict A) ≤ n)%nat →
    ∃ r, dict_merge A B add no_excl no_excl = Ok r.
Proof.
  induction n as [|n IH]; intros A B add Hn; [simpl in Hn; lia|].
  apply dict_merge_total. intros k. unfold entry_of, merge_entry.
  rewrite lookup_empty. simpl.
  destruct (A !! k) as [v|] eqn:Hk.
  - assert (Hv : (depth v ≤ n)%nat) by (apply depth_lookup in Hk; lia).
    destruct v as [| [|] | | | |d]; simpl;
      destruct add, (B !! k) as [[]|]; simpl; rewrite ?lookup_empty; try done.
    all: unfold self_at;
      match goal with
      | |- context [dict_merge_rec (VDict ?d) ?m ?a _ _] =>
          destruct (IH d m a Hv) as [r Hr]; unfold dict_merge in Hr; by rewrite Hr
      end.
  - by destruct add, (B !! k).
Qed.

(** Merging onto the empty dictionary returns the overlay, whatever the
    exclusions: they are looked for in the (empty) base only. *)
Lemma dict_merge_onto_empty (B : gmap string value) (ex : gmap string excl) :
  dict_merge ∅ B true (EDict ex) no_excl = Ok B.
Proof.
  apply dict_merge_Ok. intros k. unfold entry_of, merge_entry.
  rewrite lookup_empty. simpl. rewrite lookup_empty.
  by destruct (B !! k).
Qed.

(** An entry of the base that is not the value [True] and not a dictionary
    survives an empty overlay, marked for exclusion or not. *)
Lemma dict_merge_keeps_marked (A : gmap string value) (ex : gmap string excl)
    add k v r :
  A !! k = Some v → v ≠ VBool true → (∀ d, v ≠ VDict d) →
  dict_merge A ∅ add (EDict ex) no_excl = Ok r →
  r !! k = Some v.
Proof.
  intros Hk Htrue Hdict Hr.
  pose proof (proj1 (dict_merge_Ok _ _ _ _ _ _) Hr k) as Hent.
  unfold entry_of, merge_entry in Hent. rewrite Hk, lookup_empty in Hent.
  destruct v as [| [|] | | | |d]; try done.
  all: destruct add; simpl in Hent; rewrite ?lookup_empty in Hent; congruence.
Qed.

(** C9: for every mapping [A], nested to any depth, merging [A] onto itself
    with the default options returns a mapping equal to [A]. *)
Theorem dict_merge_idempotent (A : gmap string value) :
  dict_merge A A true no_excl no_excl = Ok A.
Proof. by apply (dict_merge_self_depth (depth (VDict A))). Qed.

(** C8: for all mappings [A] and [B] and any key [k], merging [B] onto [A]
    with the merge exclusion [{k: True}] returns a mapping whose entry at
    [k] is [A]'s entry at [k] (absent when absent in [A]), whatever [B]
    holds at [k]. *)
Theorem merge_exclusion_keeps_base_entry (A B : gmap string value) (k : string)
    (add_keys : bool) :
  ∃ r, dict_merge A B add_keys no_excl (EDict {[k := EMark true]}) = Ok r
       ∧ r !! k = A !! k.
Proof.
  assert (Hk : entry_of A B add_keys ∅ (EDict {[k := EMark true]}) k = Ok (A !! k)).
  { unfold entry_of, merge_entry. rewrite lookup_empty, lookup_singleton_eq.
    destruct (A !! k) as [[| [|] | | | |d]|], add_keys, (B !! k) as [[]|];
      simpl; done. }
  destruct (dict_merge_total A B add_keys ∅ (EDict {[k := EMark true]})) as [r Hr].
  { intros k'. destruct (decide (k' = k)) as [->|Hne]; [by rewrite Hk|].
    unfold entry_of, merge_entry.
    rewrite lookup_empty, lookup_singleton_ne by done.
    destruct (A !! k') as [v|] eqn:Hv; [|by destruct add_keys, (B !! k')].
    destruct v as [| [|] | | | |d]; simpl;
      destruct add_keys, (B !! k') as [[]|]; simpl; try done.
    all: unfold self_at;
      match goal with
      | |- context [dict_merge_rec (VDict ?d) ?m ?a _ _] =>
          destruct (dict_merge_plain_total _ d m a (le_n _)) as [r Hr];
          unfold dict_merge in Hr; by rewrite Hr
      end. }
  exists r. split; [done|].
  pose proof (proj1 (dict_merge_Ok _ _ _ _ _ _) Hr k) as Hent.
  rewrite Hk in Hent. by injection Hent.
Qed.

(** C3, at the failing input [dict_merge({"a": 1}, {}, exclusions={"a": True})]:
    the key marked [True] is still in the result. *)
Theorem exclusion_leaves_marked_key :
  dict_merge {["a" := VInt 1]} ∅ true (EDict {["a" := EMark true]}) no_excl
  = Ok {["a" := VInt 1]}.
Proof. vm_compute. reflexivity. Qed.

End MergeFacts.

(** ** Properties of the restart-file collector *)

Module CollectFacts.
Import Task MergeFacts.

Section sorting.
Variable key : string → Z.

Lemma insert_by_Permutation x l : insert_by key x l ≡ₚ x :: l.
Proof.
  induction l as [|y l IH]; simpl; [done|].
  case_bool_decide; [done|]. rewrite IH. apply Permutation_swap.
Qed.

Lemma sorted_by_Permutation l : sorted_by key l ≡ₚ l.
Proof.
  induction l as [|x l IH]; simpl; [done|].
  by rewrite insert_by_Permutation, IH.
Qed.

Lemma insert_by_sorted x l :
  StronglySorted (le_key key) l → StronglySorted (le_key key) (insert_by key x l).
Proof.
  induction 1 as [|y l Hs IH Hy]; simpl.
  - repeat constructor.
  - case_bool_decide as Hxy.
    + constructor; [by constructor|].
      constructor; [done|].
      eapply Forall_impl; [exact Hy|]. unfold le_key. intros; lia.
    + constructor; [done|].
      rewrite insert_by_Permutation. constructor; [unfold le_key; lia|done].
Qed.

Lemma sorted_by_sorted l : StronglySorted (le_key key) (sorted_by key l).
Proof.
  induction l as [|x l IH]; simpl; [constructor|]. by apply insert_by_sorted.
Qed.

Lemma sorted_last_max l f :
  StronglySorted (le_key key) l → last l = Some f → ∀ g, g ∈ l → key g ≤ key f.
Proof.
  induction 1 as [|y l Hs IH Hy]; [done|].
  intros Hlast g Hg. destruct l as [|z l'].
  - injection Hlast as <-. apply list_elem_of_singleton in Hg. by subst.
  - change (last (z :: l') = Some f) in Hlast.
    assert (Hf : f ∈ z :: l').
    { apply list_elem_of_lookup. exists (length l').
      rewrite last_lookup in Hlast. exact Hlast. }
    apply elem_of_cons in Hg as [->|Hg].
    + rewrite Forall_forall in Hy. by apply Hy.
    + by apply IH.
Qed.

(** The file chosen among several matches is one of them and none of them
    is more recent. *)
Lemma most_recent_last l f :
  last (sorted_by key l) = Some f →
  f ∈ l ∧ ∀ g, g ∈ l → key g ≤ key f.
Proof.
  intros Hlast. split.
  - rewrite <-(sorted_by_Permutation l). apply list_elem_of_lookup.
    rewrite last_lookup in Hlast. eauto.
  - intros g Hg. apply (sorted_last_max (sorted_by key l)); [apply sorted_by_sorted|done|].
    by rewrite sorted_by_Permutation.
Qed.

Lemma sorted_by_last_is_Some l : l ≠ [] → is_Some (last (sorted_by key l)).
Proof.
  intros Hl. destruct (sorted_by key l) as [|x l'] eqn:Hs.
  - apply (f_equal length) in Hs. rewrite (Permutation_length (sorted_by_Permutation l)) in Hs.
    by destruct l.
  - rewrite last_lookup. apply lookup_lt_is_Some. simpl. lia.
Qed.

End sorting.

Section with_engine.
Context `{Engine}.

(** The accumulator of the loop only grows: the loop returns the
    concatenation of what the patterns select, in order. *)
Lemma find_restart_files_fold (p : params) prefix pds acc l :
  Py.foldM (λ restart_file_list (pd : string * string),
      sel ← select_restart_file p prefix pd.1 pd.2;
      Ok (restart_file_list ++ sel)) pds acc = Ok l ↔
  ∃ sels, Forall2 (λ pd sel, select_restart_file p prefix pd.1 pd.2 = Ok sel) pds sels
          ∧ l = acc ++ concat sels.
Proof.
  revert acc. induction pds as [|pd pds IH]; intros acc; simpl.
  - split.
    + intros [= <-]. exists []. split; [constructor|by rewrite app_nil_r].
    + intros (sels & Hs & ->). inversion Hs. by rewrite app_nil_r.
  - rewrite bind_Ok. split.
    + intros (acc' & Hsel & Hrest). apply bind_Ok in Hsel as (sel & Hsel & [= <-]).
      apply IH in Hrest as (sels & Hs & ->).
      exists (sel :: sels). split; [by constructor|]. simpl. by rewrite app_assoc.
    + intros (sels & Hs & ->). inversion Hs as [|? sel ? sels' Hsel Hs']; subst.
      exists (acc ++ sel). split; [by rewrite Hsel|].
      apply IH. exists sels'. split; [done|]. simpl. by rewrite app_assoc.
Qed.

(** C7: for each restart glob pattern processed during recovery, when two
    or more files match, a file with the greatest modification time is the
    one selected for copying; when no file matches, the task fails exactly
    when [fizzle_on_no_restart_file] is set and otherwise skips the pattern.
    The loop over the patterns returns what the patterns select, in order. *)
Theorem restart_file_selection (p : params) (path_prefix : value)
    (glob_pattern dest : string) (found : list string) :
  glob_under path_prefix (VStr glob_pattern) = Ok found →
  ((2 ≤ length found)%nat →
     ∃ f, select_restart_file p path_prefix glob_pattern dest = Ok [(f, dest)]
          ∧ f ∈ found ∧ ∀ g, g ∈ found → getmtime g ≤ getmtime f)
  ∧ (found = [] →
       (select_restart_file p path_prefix glob_pattern dest = Raise ValueError
          ↔ fizzle_on_no_restart_file p = true)
       ∧ (fizzle_on_no_restart_file p = false →
            select_restart_file p path_prefix glob_pattern dest = Ok []))
  ∧ (∀ l, find_restart_files p path_prefix = Ok l ↔
       ∃ sels,
         Forall2 (λ pd sel, select_restart_file p path_prefix pd.1 pd.2 = Ok sel)
           (zip (glob_patterns p) (file_dests p)) sels
         ∧ l = concat sels).
Proof.
  intros Hglob. split; [|split].
  - intros Hlen. unfold select_restart_file. rewrite Hglob. simpl.
    destruct found as [|a [|b found']]; simpl in Hlen; try lia.
    destruct (sorted_by_last_is_Some getmtime (a :: b :: found')) as [f Hf]; [done|].
    exists f. rewrite Hf. split; [done|]. by apply most_recent_last.
  - intros ->. unfold select_restart_file. rewrite Hglob. simpl.
    by destruct (fizzle_on_no_restart_file p).
  - intros l. unfold find_restart_files. rewrite find_restart_files_fold.
    by simpl.
Qed.

End with_engine.

(** [restart_file_selection] at the previous job's directory of the
    scenario, where two files match the default pattern. *)
Lemma restart_file_selection_witness :
  glob_under (Engine := Scenario.prev_engine) (VStr "/prev") (VStr "*.restart[0-9]")
    = Ok ["/prev/job.restart3"; "/prev/job.restart7"]%string
  ∧ ∃ f, @select_restart_file Scenario.prev_engine Scenario.recovery (VStr "/prev")
           "*.restart[0-9]" "." = Ok [(f, ".")]%string
         ∧ ∀ g, g ∈ ["/prev/job.restart3"; "/prev/job.restart7"]%string →
             getmtime (Engine := Scenario.prev_engine) g
             ≤ getmtime (Engine := Scenario.prev_engine) f.
Proof.
  assert (Hg : glob_under (Engine := Scenario.prev_engine) (VStr "/prev")
                 (VStr "*.restart[0-9]")
               = Ok ["/prev/job.restart3"; "/prev/job.restart7"]%string)
    by reflexivity.
  split; [exact Hg|].
  destruct (proj1 (@restart_file_selection Scenario.prev_engine Scenario.recovery
              (VStr "/prev") "*.restart[0-9]" "." _ Hg)) as (f & Hsel & _ & Hmax).
  { simpl. lia. }
  exists f. by split.
Defined.

End CollectFacts.

(** ** Properties of the graph operations *)

Module GraphFacts.
Import Wf Scenario MergeFacts.

Lemma elem_of_leaf_fw_ids (wf : Workflow) k :
  k ∈ leaf_fw_ids wf ↔ links wf !! k = Some [].
Proof.
  unfold leaf_fw_ids. rewrite list_elem_of_fmap. split.
  - intros ([k' c] & -> & Hin). apply list_elem_of_filter in Hin as [Hc Hin].
    simpl in *. apply elem_of_map_to_list in Hin. by subst.
  - intros Hk. exists (k, []). split; [done|].
    apply list_elem_of_filter. split; [done|]. by apply elem_of_map_to_list.
Qed.

(** Updating every entry of a map in a loop. *)
Lemma foldM_insert_Ok {V} (g : V → result V) (l : list (Z * V)) (acc m' : gmap Z V) :
  NoDup l.*1 →
  Py.foldM (λ (nodes : gmap Z V) (kf : Z * V),
      fw' ← g kf.2; Ok (<[kf.1 := fw']> nodes)) l acc = Ok m' →
  (∀ k v, (k, v) ∈ l → ∃ v', g v = Ok v' ∧ m' !! k = Some v')
  ∧ (∀ k, k ∉ l.*1 → m' !! k = acc !! k).
Proof.
  revert acc. induction l as [|[k0 v0] l IH]; intros acc Hnd; simpl.
  - intros [= <-]. split; [|done]. intros k v Hin. by apply elem_of_nil in Hin.
  - apply NoDup_cons in Hnd as [Hk0 Hnd].
    intros Hfold. apply bind_Ok in Hfold as (acc1 & Hg & Hfold).
    apply bind_Ok in Hg as (v0' & Hg & [= <-]).
    destruct (IH _ Hnd Hfold) as [IH1 IH2]. split.
    + intros k v Hin. apply elem_of_cons in Hin as [[= -> ->]|Hin]; [|by eauto].
      exists v0'. split; [done|]. by rewrite IH2, lookup_insert_eq.
    + intros k Hk. apply not_elem_of_cons in Hk as [Hne Hk].
      by rewrite IH2, lookup_insert_ne.
Qed.

Lemma foldM_insert_total {V} (g : V → result V) (l : list (Z * V)) (acc : gmap Z V) :
  (∀ k v, (k, v) ∈ l → is_Ok (g v)) →
  ∃ m', Py.foldM (λ (nodes : gmap Z V) (kf : Z * V),
      fw' ← g kf.2; Ok (<[kf.1 := fw']> nodes)) l acc = Ok m'.
Proof.
  revert acc. induction l as [|[k0 v0] l IH]; intros acc Hall; simpl; [by eauto|].
  destruct (proj1 (is_Ok_true (g v0))) as [v0' Hv0]; [apply (Hall k0); by left|].
  rewrite Hv0. simpl. apply IH. intros k v Hin. apply (Hall k). by right.
Qed.

(** [for_each_fw] replaces each node, under its key, by its image. *)
Lemma for_each_fw_Ok (g : Firework → result Firework) (wf wf' : Workflow) :
  for_each_fw g wf = Ok wf' →
  links wf' = links wf
  ∧ ∀ k, match id_fw wf !! k with
         | Some fw => ∃ fw', g fw = Ok fw' ∧ id_fw wf' !! k = Some fw'
         | None => id_fw wf' !! k = None
         end.
Proof.
  unfold for_each_fw. intros Hf. apply bind_Ok in Hf as (m' & Hfold & [= <-]).
  apply foldM_insert_Ok in Hfold as [H1 H2]; [|apply NoDup_fst_map_to_list].
  split; [done|]. intros k. simpl.
  destruct (id_fw wf !! k) as [fw|] eqn:Hk.
  - apply H1. by apply elem_of_map_to_list.
  - rewrite H2, Hk; [done|]. intros Hin. apply list_elem_of_fmap in Hin as ([k' v] & -> & Hin).
    apply elem_of_map_to_list in Hin. simpl in Hk. congruence.
Qed.

Lemma for_each_fw_total (g : Firework → result Firework) (wf : Workflow) :
  (∀ k fw, id_fw wf !! k = Some fw → is_Ok (g fw)) →
  ∃ wf', for_each_fw g wf = Ok wf'.
Proof.
  intros Hall. unfold for_each_fw.
  destruct (foldM_insert_total g (map_to_list (id_fw wf)) (id_fw wf)) as [m' Hm'].
  { intros k v Hin. apply (Hall k). by apply elem_of_map_to_list. }
  rewrite Hm'. by eauto.
Qed.

(** Adding the nodes of a well-formed fragment with fresh identifiers. *)
Lemma append_nodes (new_wf : Workflow) (l : list (Z * Firework)) (acc : Workflow) :
  (∀ k fw, (k, fw) ∈ l → fw_id fw = k ∧ k < 0 ∧ is_Some (links new_wf !! k)) →
  NoDup l.*1 →
  ∃ w, Py.foldM (λ (w : Workflow) (new_fw : Firework),
      if bool_decide (0 ≤ fw_id new_fw) then Raise ValueError else
      children ←
        (if bool_decide (fw_id new_fw ∈ leaf_fw_ids new_wf) then Ok []
         else match links new_wf !! fw_id new_fw with
              | Some c => Ok c
              | None => Raise KeyError
              end);
      Ok (mkWorkflow (<[fw_id new_fw := new_fw]> (id_fw w))
                     (<[fw_id new_fw := children]> (links w))))
    l.*2 acc = Ok w
    ∧ (∀ k, id_fw w !! k =
            match (list_to_map l : gmap Z Firework) !! k with
            | Some fw => Some fw
            | None => id_fw acc !! k
            end)
    ∧ (∀ k, links w !! k =
            match (list_to_map l : gmap Z Firework) !! k with
            | Some _ => links new_wf !! k
            | None => links acc !! k
            end).
Proof.
  revert acc. induction l as [|[k0 fw0] l IH]; intros acc Hall Hnd.
  - exists acc. by split.
  - rewrite fmap_cons in Hnd. apply NoDup_cons in Hnd as [Hk0 Hnd].
    rewrite fmap_cons. cbn [Py.foldM fst snd] in *.
    destruct (Hall k0 fw0) as (Hid & Hneg & [c Hc]); [by left|].
    rewrite bool_decide_false by lia.
    assert (Hch : (if bool_decide (fw_id fw0 ∈ leaf_fw_ids new_wf) then Ok []
                   else match links new_wf !! fw_id fw0 with
                        | Some c => Ok c
                        | None => Raise KeyError
                        end) = Ok c).
    { rewrite Hid. case_bool_decide as Hleaf; [|by rewrite Hc].
      apply elem_of_leaf_fw_ids in Hleaf. congruence. }
    rewrite Hch. cbn [mbind result_bind]. rewrite Hid.
    destruct (IH (mkWorkflow (<[k0 := fw0]> (id_fw acc)) (<[k0 := c]> (links acc))))
      as (w & Hw & Hn & Hl); [by intros; apply Hall; right|done|].
    exists w. split; [done|].
    assert (Hnone : (list_to_map l : gmap Z Firework) !! k0 = None)
      by (apply not_elem_of_list_to_map_1; exact Hk0).
    split; intros k; [rewrite Hn|rewrite Hl]; cbn [list_to_map foldr id_fw links];
      (destruct (decide (k = k0)) as [->|Hne];
       [rewrite Hnone, !lookup_insert_eq|rewrite !lookup_insert_ne by done]); done.
Qed.

(** Appended below no parent, a fragment is added as it is. *)
Lemma append_wf_no_parent (self new_wf : Workflow) :
  well_formed new_wf → fresh new_wf →
  append_wf self new_wf [] =
    Ok (mkWorkflow (id_fw new_wf ∪ id_fw self) (links new_wf ∪ links self)).
Proof.
  intros [Hkey Hdom] Hfresh. unfold append_wf, fws.
  destruct (append_nodes new_wf (map_to_list (id_fw new_wf)) self) as (w & Hw & Hn & Hl).
  { intros k fw Hin. apply elem_of_map_to_list in Hin.
    split; [by apply Hkey|]. split; [by apply Hfresh|].
    apply elem_of_dom. rewrite Hdom. by apply elem_of_dom. }
  { apply NoDup_fst_map_to_list. }
  rewrite Hw. simpl. f_equal. destruct w as [n l]. simpl in *. f_equal.
  - apply map_eq. intros k. rewrite Hn, list_to_map_to_list, lookup_union.
    by destruct (id_fw new_wf !! k), (id_fw self !! k).
  - apply map_eq. intros k. rewrite Hl, list_to_map_to_list, lookup_union.
    destruct (id_fw new_wf !! k) eqn:Hk.
    + assert (is_Some (links new_wf !! k)) as [c ->].
      { apply elem_of_dom. rewrite Hdom. by apply elem_of_dom. }
      by destruct (links self !! k).
    + assert (links new_wf !! k = None) as ->.
      { apply not_elem_of_dom. rewrite Hdom. by apply not_elem_of_dom. }
      by destruct (links self !! k).
Qed.

(** Linking one new child below a list of distinct parents. *)
Lemma link_below (root_id : Z) (l : list Z) (w : Workflow) :
  NoDup l → (∀ p, p ∈ l → is_Some (links w !! p)) →
  ∃ w', Py.foldM (λ (w : Workflow) (parent : Z),
      Py.foldM (λ (w : Workflow) (root_id : Z),
          match links w !! parent with
          | Some c => Ok (mkWorkflow (id_fw w) (<[parent := c ++ [root_id]]> (links w)))
          | None => Raise KeyError
          end) [root_id] w) l w = Ok w'
    ∧ id_fw w' = id_fw w
    ∧ ∀ k, links w' !! k =
           if bool_decide (k ∈ l) then (λ c, c ++ [root_id]) <$> links w !! k
           else links w !! k.
Proof.
  revert w. induction l as [|p l IH]; intros w Hnd Hall.
  - exists w. by cbn.
  - apply NoDup_cons in Hnd as [Hp Hnd].
    destruct (Hall p) as [c Hc]; [by left|].
    cbn [Py.foldM]. rewrite Hc. cbn [mbind result_bind].
    set (w1 := mkWorkflow _ _).
    destruct (IH w1 Hnd) as (w' & Hrun & Hn & Hl).
    { intros p' Hp'. subst w1. cbn.
      rewrite lookup_insert_ne by (intros ->; done). apply Hall. by right. }
    exists w'. split; [done|]. split; [by rewrite Hn|].
    intros k. rewrite Hl. subst w1. cbn.
    destruct (decide (k = p)) as [->|Hne].
    + rewrite bool_decide_false by done. rewrite bool_decide_true by (by left).
      by rewrite lookup_insert_eq, Hc.
    + rewrite lookup_insert_ne by done.
      rewrite (bool_decide_ext (k ∈ p :: l) (k ∈ l)); [done|].
      rewrite elem_of_cons. split; [intros [?|?]; done|by right].
Qed.

(** [append_wf] of a single new node below the leaves: the node is added,
    and it becomes the one child of every former leaf. *)
Lemma append_wf_below_leaves (wf : Workflow) (r : Firework) :
  fw_id r < 0 → links wf !! fw_id r = None →
  ∃ wf', append_wf wf (single r) (leaf_fw_ids wf) = Ok wf'
    ∧ id_fw wf' = <[fw_id r := r]> (id_fw wf)
    ∧ links wf' !! fw_id r = Some []
    ∧ ∀ k, k ≠ fw_id r →
        links wf' !! k =
        if bool_decide (k ∈ leaf_fw_ids wf) then Some [fw_id r] else links wf !! k.
Proof.
  intros Hneg Hfresh. unfold append_wf, fws, root_fw_ids.
  assert (Hleaf : leaf_fw_ids (single r) = [fw_id r]).
  { unfold leaf_fw_ids, single. cbn. by rewrite map_to_list_singleton. }
  rewrite Hleaf. unfold single. cbn [id_fw links].
  rewrite !map_to_list_singleton. cbn [fmap list_fmap snd fst concat app].
  cbn [Py.foldM]. rewrite bool_decide_false by lia.
  rewrite bool_decide_true by (by left). cbn [mbind result_bind].
  rewrite filter_cons_True by (intros Hin; by apply elem_of_nil in Hin).
  rewrite filter_nil.
  set (w1 := mkWorkflow _ _).
  destruct (link_below (fw_id r) (leaf_fw_ids wf) w1) as (w' & Hrun & Hn & Hl).
  { clear. unfold leaf_fw_ids. apply NoDup_fmap_fst.
    - intros k c1 c2 H1 H2.
      apply list_elem_of_filter in H1 as [_ H1].
      apply list_elem_of_filter in H2 as [_ H2].
      exact (map_to_list_unique _ _ _ _ H1 H2).
    - apply NoDup_filter, NoDup_map_to_list. }
  { intros p Hp. apply elem_of_leaf_fw_ids in Hp. subst w1. cbn.
    rewrite lookup_insert_ne by (intros <-; congruence). by eauto. }
  exists w'. split; [exact Hrun|]. split; [by rewrite Hn|].
  assert (Hr : fw_id r ∉ leaf_fw_ids wf).
  { intros Hin. apply elem_of_leaf_fw_ids in Hin. congruence. }
  split.
  - rewrite Hl, bool_decide_false by done. subst w1. cbn.
    by rewrite lookup_insert_eq.
  - intros k Hk. rewrite Hl. subst w1. cbn. rewrite lookup_insert_ne by done.
    case_bool_decide as Hin; [|done].
    apply elem_of_leaf_fw_ids in Hin. by rewrite Hin.
Qed.

End GraphFacts.

(** ** Properties of [apply_mod_spec] *)

Module PropagateFacts.
Import Wf Propagate MergeFacts GraphFacts.

#[local] Arguments recursive_update_spec : simpl never.

Lemma NoDup_leaf_fw_ids (wf : Workflow) : NoDup (leaf_fw_ids wf).
Proof.
  unfold leaf_fw_ids. apply NoDup_fmap_fst.
  - intros k c1 c2 H1 H2.
    apply list_elem_of_filter in H1 as [_ H1].
    apply list_elem_of_filter in H2 as [_ H2].
    exact (map_to_list_unique _ _ _ _ H1 H2).
  - apply NoDup_filter, NoDup_map_to_list.
Qed.

Section with_engine.
Context `{Engine}.

(** [recursive_mod_spec] raises at the first identifier not yet visited. *)
Lemma recursive_mod_spec_raises (mods : list value) (fw_ids : list Z) (st : state) :
  (∃ c, c ∈ fw_ids ∧ c ∉ visited st) →
  ∃ e, recursive_mod_spec mods fw_ids st = Raise e.
Proof.
  unfold recursive_mod_spec. revert st.
  induction fw_ids as [|c l IH]; intros st (c' & Hin & Hnv).
  - by apply elem_of_nil in Hin.
  - cbn [Py.foldM]. case_bool_decide as Hv.
    + cbn. apply IH. exists c'. split; [|done].
      apply elem_of_cons in Hin as [->|Hin]; done.
    + destruct (mod_node mods c (mark c st)); cbn; eauto.
Qed.

(** Propagating a non-empty [mod_spec] over a workflow that has a leaf never
    returns. *)
Lemma mod_spec_propagation_never_returns (wf : Workflow) (action : FWAction) :
  mod_spec action ≠ [] → propagate action = true → leaf_fw_ids wf ≠ [] →
  ∃ e, apply_mod_spec wf action = Raise e.
Proof.
  intros Hmod Hprop Hleaf. unfold apply_mod_spec. rewrite Hprop.
  match goal with
  | |- ∃ e, (st1 ← ?r; _) = _ => destruct r as [st1|e]; [|by eauto]
  end.
  cbn. destruct (mod_spec action) as [|m mods] eqn:Hm; [done|]. cbn.
  destruct (recursive_mod_spec_raises (m :: mods) (leaf_fw_ids wf)
              (mkState ∅ st1.1 st1.2)) as [e He].
  { destruct (leaf_fw_ids wf) as [|c l]; [done|].
    exists c. split; [by left|]. cbn. apply not_elem_of_empty. }
  rewrite He. cbn. eauto.
Qed.

Lemma recursive_update_spec_S n lnk upd fw_ids st :
  recursive_update_spec (S n) lnk upd fw_ids st =
  Py.foldM (λ st cfid,
      if bool_decide (cfid ∈ visited st) then Ok st else
      st1 ← update_node upd cfid (mark cfid st);
      match lnk !! cfid with
      | None => Raise KeyError
      | Some children => recursive_update_spec n lnk upd children st1
      end) fw_ids st.
Proof. reflexivity. Qed.

Lemma bind_Ok_l {A B} (a : A) (f : A → result B) : (x ← Ok a; f x) = f a.
Proof. reflexivity. Qed.

(** One turn of the loop at an identifier without children. *)
Lemma update_childless_step (n : nat) lnk upd (c : Z) (st : state) fw :
  lnk !! c = Some [] → nodes st !! c = Some fw → c ∉ visited st →
  (if bool_decide (c ∈ visited st) then Ok st else
   st1 ← update_node upd c (mark c st);
   match lnk !! c with
   | None => Raise KeyError
   | Some children => recursive_update_spec (S n) lnk upd children st1
   end)
  = Ok (mkState ({[c]} ∪ visited st)
          (<[c := set_spec fw (upd ∪ spec fw)]> (nodes st))
          (updated_ids st ++ [c])).
Proof.
  intros Hlnk Hfw Hnv. rewrite bool_decide_false by done.
  unfold update_node. cbn [nodes mark]. by rewrite Hfw, Hlnk.
Qed.

(** Started on identifiers without children, [recursive_update_spec] updates
    each of them once, in order. *)
Lemma update_childless (n : nat) lnk upd (l : list Z) (st : state) :
  NoDup l →
  (∀ c, c ∈ l → lnk !! c = Some [] ∧ is_Some (nodes st !! c) ∧ c ∉ visited st) →
  ∃ st', recursive_update_spec (S (S n)) lnk upd l st = Ok st'
    ∧ updated_ids st' = updated_ids st ++ l
    ∧ ∀ k, nodes st' !! k =
           if bool_decide (k ∈ l)
           then (λ fw, set_spec fw (upd ∪ spec fw)) <$> nodes st !! k
           else nodes st !! k.
Proof.
  rewrite recursive_update_spec_S. revert st.
  induction l as [|c l IH]; intros st Hnd Hall.
  - exists st. cbn. split; [done|]. split; [by rewrite app_nil_r|done].
  - apply NoDup_cons in Hnd as [Hc Hnd].
    destruct (Hall c) as (Hlnk & [fw Hfw] & Hnv); [by left|].
    cbn [Py.foldM]. rewrite (update_childless_step n lnk upd c st fw) by done.
    rewrite bind_Ok_l.
    set (st1 := mkState _ _ _).
    destruct (IH st1 Hnd) as (st' & Hrun & Hids & Hnodes).
    { intros c' Hc'. destruct (Hall c') as (? & ? & ?); [by right|].
      assert (c' ≠ c) by (intros ->; done).
      split; [done|]. subst st1. cbn. split.
      - by rewrite lookup_insert_ne.
      - intros Hin. apply elem_of_union in Hin as [Hin|Hin]; [|done].
        by apply elem_of_singleton in Hin. }
    exists st'. split; [done|]. split.
    + rewrite Hids. subst st1. cbn. by rewrite <-app_assoc.
    + intros k. rewrite Hnodes. subst st1. cbn.
      destruct (decide (k = c)) as [->|Hne].
      * rewrite bool_decide_false by done.
        rewrite bool_decide_true by (by left).
        by rewrite lookup_insert_eq, Hfw.
      * rewrite lookup_insert_ne by done.
        rewrite (bool_decide_ext (k ∈ c :: l) (k ∈ l)); [done|].
        rewrite elem_of_cons. split; [intros [?|?]; done|by right].
Qed.

(** With the propagation flag set and no [mod_spec], [update_spec] is
    applied exactly once to each leaf (the nodes the traversal starts from
    have no children to descend to), and to no other node. *)
Lemma update_spec_propagation_once (wf : Workflow) (action : FWAction) :
  update_spec action ≠ ∅ → propagate action = true → mod_spec action = [] →
  (∀ c, c ∈ leaf_fw_ids wf → is_Some (id_fw wf !! c)) →
  ∃ wf', apply_mod_spec wf action = Ok (wf', leaf_fw_ids wf)
    ∧ NoDup (leaf_fw_ids wf)
    ∧ links wf' = links wf
    ∧ ∀ k, id_fw wf' !! k =
           if bool_decide (k ∈ leaf_fw_ids wf)
           then (λ fw, set_spec fw (update_spec action ∪ spec fw)) <$> id_fw wf !! k
           else id_fw wf !! k.
Proof.
  intros Hupd Hprop Hmod Hnodes. unfold apply_mod_spec.
  rewrite Hprop, Hmod, (bool_decide_false _ Hupd). cbn.
  destruct (update_childless (size (links wf)) (links wf) (update_spec action)
              (leaf_fw_ids wf) (mkState ∅ (id_fw wf) [])) as (st' & Hrun & Hids & Hn).
  { apply NoDup_leaf_fw_ids. }
  { intros c Hc. split; [by apply elem_of_leaf_fw_ids|].
    split; [by apply Hnodes|cbn; apply not_elem_of_empty]. }
  rewrite Hrun. cbn. rewrite Hids. cbn.
  eexists. split; [done|]. split; [apply NoDup_leaf_fw_ids|]. split; [done|].
  exact Hn.
Qed.

End with_engine.
End PropagateFacts.

(** ** Properties of [run_task] *)

Module TaskFacts.
Import Wf Task Scenario MergeFacts GraphFacts.

Section with_engine.
Context `{Engine}.

(** The count found in the previous job's spec is raised by one. *)
Lemma restart_count_of_found (d : gmap string value) sp counter c :
  d !! "spec" = Some sp →
  get_nested_dict_value sp counter = Ok (VInt c) →
  restart_count_of (VDict d) counter = Ok (c + 1).
Proof.
  intros Hsp Hget.
  assert (d ≠ ∅) as Hne by (intros ->; by rewrite lookup_empty in Hsp).
  unfold restart_count_of. simpl.
  rewrite (bool_decide_false _ Hne), Hsp. simpl.
  by rewrite Hget.
Qed.

(** Without a counter in the previous job's spec the count is 0, whatever
    the current job's own spec holds: the count is computed from the
    previous job's record alone. *)
Lemma restart_count_of_missing (d : gmap string value) sp counter :
  d !! "spec" = Some sp →
  get_nested_dict_value sp counter = Raise KeyError →
  restart_count_of (VDict d) counter = Ok 0.
Proof.
  intros Hsp Hget.
  assert (d ≠ ∅) as Hne by (intros ->; by rewrite lookup_empty in Hsp).
  unfold restart_count_of. simpl.
  rewrite (bool_decide_false _ Hne), Hsp. simpl.
  by rewrite Hget.
Qed.

(** C1, as amended: in a recovery ([recover] true) let the count of the
    attempt be one more than the counter found in the previous job's spec,
    and 0 when no counter is found (the first attempt).  The restart
    fragment is built if and only if the count is strictly less than
    [max_restarts + 1]; when it is built, every node of the fragment has the
    count written into its spec at the restart-counter path; successive
    attempts count up by exactly one. *)
Theorem restart_count_policy (p : params) (next : Z) (prev_job_info : value)
    (count : Z) :
  restart_count_of prev_job_info (restart_counter p) = Ok count →
  (max_restarts p + 1 ≤ count → build_restart p next prev_job_info = Ok None)
  ∧ (count < max_restarts p + 1 →
       ∀ base wf0 n,
         parent_base_spec (superpose_restart_on_parent_fw_spec p) prev_job_info
           = Ok base →
         appendable_wf_from_dict next (restart_wf p) base (fw_spec_to_exclude_dict p)
           = Ok (wf0, n) →
         (∀ k fw, id_fw wf0 !! k = Some fw →
            is_Ok (set_nested_dict_value (spec fw) (restart_counter p) (VInt count))) →
         ∃ wf, build_restart p next prev_job_info = Ok (Some (wf, n))
               ∧ links wf = links wf0
               ∧ ∀ k, match id_fw wf0 !! k with
                      | Some fw0 =>
                          ∃ sp, set_nested_dict_value (spec fw0) (restart_counter p)
                                  (VInt count) = Ok sp
                                ∧ id_fw wf !! k = Some (set_spec fw0 sp)
                      | None => id_fw wf !! k = None
                      end)
  ∧ (∀ r, build_restart p next prev_job_info = Ok r →
       (is_Some r ↔ count < max_restarts p + 1))
  ∧ (∀ d sp c, prev_job_info = VDict d → d !! "spec" = Some sp →
       get_nested_dict_value sp (restart_counter p) = Ok (VInt c) →
       count = c + 1)
  ∧ (∀ d sp (fw_spec : gmap string value),
       prev_job_info = VDict d → d !! "spec" = Some sp →
       get_nested_dict_value sp (restart_counter p) = Raise KeyError →
       get_nested_dict_value (VDict fw_spec) (restart_counter p) = Raise KeyError →
       count = 0).
Proof.
  intros Hcount. split; [|split; [|split; [|split]]].
  - intros Hmax. unfold build_restart. rewrite Hcount. simpl.
    by rewrite bool_decide_false by lia.
  - intros Hmax base wf0 n Hbase Hbuild Hset.
    unfold build_restart. rewrite Hcount. simpl.
    rewrite bool_decide_true by done. rewrite Hbase. simpl. rewrite Hbuild. simpl.
    destruct (for_each_fw_total (λ fw,
        sp ← set_nested_dict_value (spec fw) (restart_counter p) (VInt count);
        Ok (set_spec fw sp)) wf0) as [wf Hwf].
    { intros k fw Hk. specialize (Hset k fw Hk).
      by destruct (set_nested_dict_value _ _ _). }
    exists wf. unfold inject_counter. rewrite Hwf. split; [done|].
    apply for_each_fw_Ok in Hwf as [Hl Hn]. split; [done|].
    intros k. specialize (Hn k). destruct (id_fw wf0 !! k) as [fw0|]; [|done].
    destruct Hn as (fw' & Hg & Hk). apply bind_Ok in Hg as (sp & Hsp & [= <-]).
    by exists sp.
  - intros r Hr. unfold build_restart in Hr. rewrite Hcount in Hr. simpl in Hr.
    case_bool_decide as Hmax.
    + split; [done|]. intros _.
      apply bind_Ok in Hr as (base & _ & Hr).
      apply bind_Ok in Hr as (wn & _ & Hr).
      apply bind_Ok in Hr as (wf & _ & [= <-]). by eauto.
    + injection Hr as <-. split; [by intros [? ?]|done].
  - intros d sp c -> Hsp Hget.
    rewrite (restart_count_of_found _ _ _ _ Hsp Hget) in Hcount. by injection Hcount.
  - intros d sp fw_spec -> Hsp Hget _.
    rewrite (restart_count_of_missing _ _ _ Hsp Hget) in Hcount. by injection Hcount.
Qed.

(** C4, as amended: when both fragments are built, the combined fragment is
    their union: the nodes of both under unchanged identifiers and the
    edges of both, none added between a detour node and a restart node;
    when only the restart fragment exists, it is the combined fragment. *)
Theorem merge_insertions_union (detour restart : Workflow) :
  well_formed restart → fresh restart →
  (∃ combined, merge_insertions (Some detour) restart = Ok combined
     ∧ id_fw combined = id_fw restart ∪ id_fw detour
     ∧ links combined = links restart ∪ links detour
     ∧ ∀ a b, id_fw restart !! a = None →
         (edge combined a b ↔ edge detour a b))
  ∧ merge_insertions None restart = Ok restart.
Proof.
  intros Hwf Hfresh. split; [|done].
  eexists. split; [by apply append_wf_no_parent|]. simpl.
  split; [done|]. split; [done|].
  intros a b Ha. unfold edge. simpl. rewrite lookup_union.
  assert (links restart !! a = None) as ->.
  { destruct Hwf as [_ Hdom]. apply not_elem_of_dom. rewrite Hdom.
    by apply not_elem_of_dom. }
  by destruct (links detour !! a).
Qed.

(** The record handed to the repeated recovery node is the whole spec of
    the current job: merging onto the empty dictionary excludes nothing. *)
Lemma recover_fw_spec_whole (p : params) (fw_spec : gmap string value) l :
  fw_spec_to_exclude p = inl l → recover_fw_spec p fw_spec = Ok fw_spec.
Proof.
  intros Hl. unfold recover_fw_spec, fw_spec_to_exclude_dict. rewrite Hl.
  apply dict_merge_onto_empty.
Qed.

(** The repeated recovery node is one new node, stored under the next free
    identifier, and the only child of every leaf of the combined fragment. *)
Lemma recovery_node_below_every_leaf (p : params) (next : Z)
    (sp : gmap string value) (wf : Workflow) :
  next < 0 → links wf !! next = None →
  ∃ wf', append_recover_fw p next sp wf = Ok (wf', next - 1)
    ∧ id_fw wf' = <[next := recover_fw p next sp]> (id_fw wf)
    ∧ ∀ l, l ∈ leaf_fw_ids wf → links wf' !! l = Some [next].
Proof.
  intros Hneg Hfresh. unfold append_recover_fw.
  destruct (append_wf_below_leaves wf (recover_fw p next sp)) as (wf' & Hrun & Hn & _ & Hl);
    [done|done|].
  exists wf'. rewrite Hrun. split; [done|]. split; [done|].
  intros l Hin. cbn in Hl. rewrite Hl.
  - by rewrite bool_decide_true.
  - intros ->. apply elem_of_leaf_fw_ids in Hin. congruence.
Qed.

(** C10: when the job spec holds neither ['_job_info'] nor
    ['_fizzled_parents'], and superposition on the parent's spec is asked
    for a configured detour, or for a configured addition (the detour
    stage having gone through), [run_task] raises TypeError. *)
Theorem superpose_without_parent_raises (p : params) (fw_spec : gmap string value) :
  fw_spec !! "_job_info" = None →
  fw_spec !! "_fizzled_parents" = None →
  ((∃ d, detour_wf p = VDict d) ∧ superpose_detour_on_parent_fw_spec p = true)
  ∨ ((∃ a, addition_wf p = VDict a) ∧ superpose_addition_on_parent_fw_spec p = true
     ∧ is_Ok (build_detour p (-1) VNone)) →
  run_task p fw_spec = Raise TypeError.
Proof.
  intros Hj Hf Hcase. unfold run_task, classify. rewrite Hj, Hf. simpl.
  destruct Hcase as [[[d Hd] Hs] | ([a Ha] & Hs & Hdet)].
  - unfold build_detour. rewrite Hd, Hs. done.
  - apply is_Ok_true in Hdet as [dn Hdn]. rewrite Hdn. simpl.
    unfold build_addition. rewrite Ha, Hs. done.
Qed.

End with_engine.

(** *** The task run on concrete jobs *)

Lemma single_well_formed (fw : Firework) : well_formed (single fw).
Proof.
  split; simpl.
  - intros k fw' Hk. apply lookup_singleton_Some in Hk as [<- <-]. done.
  - by rewrite !dom_singleton_L.
Qed.

Lemma single_fresh (fw : Firework) : fw_id fw < 0 → fresh (single fw).
Proof.
  intros Hneg k [fw' Hk]. simpl in Hk.
  apply lookup_singleton_Some in Hk as [<- <-]. done.
Qed.

(** The scenario of the spec: a parent fizzled at count 2 and at most 5
    restarts; the restart node carries count 3. *)
Example restart_after_count_2 :
  spec_entry_of (@run_task prev_engine recovery spec_count_2) (-2) "restart_count"
  = Some (VInt 3).
Proof. vm_compute. reflexivity. Qed.

(** A parent that fizzled at count 5 with at most 5 restarts: the detour
    node alone is returned, no restart and no recovery node. *)
Example no_restart_at_maximum :
  nodes_of (@run_task prev_engine recovery spec_count_5) = Some [-1].
Proof. vm_compute. reflexivity. Qed.

(** No record of a previous job: no restart, the detour is still built. *)
Example no_restart_without_parent :
  nodes_of (@run_task prev_engine recovery spec_no_parent) = Some [-1].
Proof. vm_compute. reflexivity. Qed.

(** Of [job.restart3] and the more recent [job.restart7], the latter is
    selected. *)
Example most_recent_restart_file :
  @find_restart_files prev_engine recovery (VStr "/prev")
  = Ok [("/prev/job.restart7", ".")]%string.
Proof. vm_compute. reflexivity. Qed.

(** C1, the claim as stated fails: for a first recovery (no counter
    anywhere) with [max_restarts = 0], the count incremented as the spec
    words it is 1, which is not below [max_restarts + 1]; yet the restart
    node (-2) is built, and the count written into it is 0. *)
Lemma first_attempt_count_not_incremented :
  @spec_incremented_count prev_engine (fizzled_parent ∅) spec_no_counter
      (restart_counter single_shot) = Ok 1
  ∧ ¬ (1 < max_restarts single_shot + 1)
  ∧ name_of (@run_task prev_engine single_shot spec_no_counter) (-2)
    = Some (VStr "restart")
  ∧ spec_entry_of (@run_task prev_engine single_shot spec_no_counter) (-2)
      "restart_count" = Some (VInt 0).
Proof.
  split; [vm_compute; reflexivity|]. split; [cbn; lia|].
  split; vm_compute; reflexivity.
Qed.

(** C4, the claim as stated fails: in the action returned for a job with a
    detour and a restart fragment, the detour's leaf (-1) and the restart's
    root (-2) both have the recovery node (-3) as their only child; there is
    no edge from -1 to -2. *)
Lemma detour_leaf_not_linked_to_restart_root :
  name_of (@run_task prev_engine recovery spec_count_2) (-1) = Some (VStr "detour")
  ∧ name_of (@run_task prev_engine recovery spec_count_2) (-2) = Some (VStr "restart")
  ∧ children_of (@run_task prev_engine recovery spec_count_2) (-1) = Some [-3]
  ∧ children_of (@run_task prev_engine recovery spec_count_2) (-2) = Some [-3]
  ∧ -2 ∉ [-3].
Proof.
  repeat split; try (vm_compute; reflexivity).
  intros Hin. apply list_elem_of_singleton in Hin. lia.
Qed.

(** C2, at the failing input: with the default [fw_spec_to_exclude], the
    spec of the repeated recovery node (-3) still holds the current job's
    ['_fizzled_parents']. *)
Theorem recovery_node_keeps_excluded_key :
  "_fizzled_parents" ∈ default_fw_spec_to_exclude
  ∧ name_of (@run_task prev_engine recovery spec_count_2) (-3) = Some (VStr "recover")
  ∧ spec_entry_of (@run_task prev_engine recovery spec_count_2) (-3) "_fizzled_parents"
    = spec_count_2 !! "_fizzled_parents"
  ∧ is_Some (spec_count_2 !! "_fizzled_parents").
Proof.
  split; [|split; [|split]].
  - unfold default_fw_spec_to_exclude. set_solver.
  - vm_compute. reflexivity.
  - vm_compute. reflexivity.
  - vm_compute. eauto.
Qed.

(** C6, at the failing input: the parent's spec holds no counter and the
    current job's own spec holds 3; the restart node (-2) is given count 0,
    the own spec is not consulted. *)
Theorem own_spec_counter_ignored :
  spec_own_count_3 !! "restart_count" = Some (VInt 3)
  ∧ spec_entry_of (@run_task prev_engine recovery spec_own_count_3) (-2) "restart_count"
    = Some (VInt 0).
Proof. split; vm_compute; reflexivity. Qed.

(** On the diamond, propagating [update_spec] updates the leaf, once. *)
Example update_diamond_once :
  (r ← @Propagate.apply_mod_spec prev_engine diamond update_action; Ok r.2) = Ok [-4].
Proof. vm_compute. reflexivity. Qed.

(** C5, at the failing input: propagating a [mod_spec] over the diamond
    raises TypeError instead of applying the operation once to the leaf. *)
Theorem mod_spec_propagation_raises :
  leaf_fw_ids diamond = [-4]
  ∧ @Propagate.apply_mod_spec prev_engine diamond mod_action = Raise TypeError.
Proof. split; vm_compute; reflexivity. Qed.

(** *** Witnesses *)

(** [restart_count_policy] for a parent that fizzled at count 2. *)
Lemma restart_count_policy_witness :
  @restart_count_of prev_engine (fizzled_parent {["restart_count" := VInt 2]})
      (restart_counter recovery) = Ok 3
  ∧ (∀ r, @build_restart prev_engine recovery (-2)
            (fizzled_parent {["restart_count" := VInt 2]}) = Ok r →
       (is_Some r ↔ 3 < max_restarts recovery + 1)).
Proof.
  assert (Hc : @restart_count_of prev_engine (fizzled_parent {["restart_count" := VInt 2]})
                 (restart_counter recovery) = Ok 3) by (vm_compute; reflexivity).
  split; [exact Hc|].
  exact (proj1 (proj2 (proj2
    (@restart_count_policy prev_engine recovery (-2) _ 3 Hc)))).
Defined.

(** [merge_insertions_union] for a one-node detour and a one-node restart
    fragment. *)
Lemma merge_insertions_union_witness :
  well_formed (single (node (-2))) ∧ fresh (single (node (-2)))
  ∧ ∃ combined,
      merge_insertions (Some (single (node (-1)))) (single (node (-2))) = Ok combined
      ∧ links combined = links (single (node (-2))) ∪ links (single (node (-1))).
Proof.
  assert (Hw : well_formed (single (node (-2)))) by apply single_well_formed.
  assert (Hf : fresh (single (node (-2)))) by (apply single_fresh; simpl; lia).
  split; [exact Hw|]. split; [exact Hf|].
  destruct (proj1 (merge_insertions_union (single (node (-1))) _ Hw Hf))
    as (combined & Hm & _ & Hl & _).
  exists combined. by split.
Defined.

(** [superpose_without_parent_raises] for a job without any record of a
    previous job and a detour to superpose on the parent's spec. *)
Lemma superpose_without_parent_raises_witness :
  spec_no_parent !! "_job_info" = None
  ∧ spec_no_parent !! "_fizzled_parents" = None
  ∧ @run_task prev_engine superposing spec_no_parent = Raise TypeError.
Proof.
  assert (Hj : spec_no_parent !! "_job_info" = None) by reflexivity.
  assert (Hf : spec_no_parent !! "_fizzled_parents" = None) by reflexivity.
  split; [exact Hj|]. split; [exact Hf|].
  apply (@superpose_without_parent_raises prev_engine superposing spec_no_parent Hj Hf).
  left. split; [by eexists|reflexivity].
Defined.

End TaskFacts.

(** * Further properties *)

(** ** More on [dict_merge] *)

Module MergeMore.
Import Merge MergeFacts.

#[local] Arguments dict_merge_rec : simpl never.

(** As soon as one key raises, the call does. *)
Lemma dict_merge_Raise (dct merge_dct : gmap string value) add ex mex k e :
  is_Some (dct !! k) ∨ is_Some (merge_dct !! k) →
  entry_of dct merge_dct add ex mex k = Raise e →
  dict_merge dct merge_dct add (EDict ex) mex = Raise TypeError.
Proof.
  intros Hk He. rewrite dict_merge_unfold. unfold collect.
  rewrite decide_False; [done|]. intros Hall.
  specialize (Hall k (entry_of dct merge_dct add ex mex k)).
  rewrite cells_lookup in Hall.
  assert (Hsome : match dct !! k, merge_dct !! k with
                  | None, None => None
                  | _, _ => Some (entry_of dct merge_dct add ex mex k)
                  end = Some (entry_of dct merge_dct add ex mex k)).
  { destruct Hk as [[? ->]|[? ->]]; [done|]. by destruct (dct !! k). }
  specialize (Hall Hsome). by rewrite He in Hall.
Qed.

(** An entry kept from the base or taken from the overlay is never lost in
    the nested call. *)
Lemma entry_of_Some_base (A B : gmap string value) add ex mex k v o :
  A !! k = Some v →
  entry_of A B add ex mex k = Ok o →
  o = None → v = VBool true ∧ is_Some (ex !! k).
Proof.
  intros Hk Hent ->. unfold entry_of, merge_entry, self_at in Hent.
  rewrite Hk in Hent.
  destruct v as [| [|] | | | |d]; cbn in Hent;
    try (destruct (decide (is_Some (ex !! k))) as [Hin|Hnot]; [done|]);
    exfalso;
    repeat (first
      [ congruence
      | match type of Hent with
        | (_ ≫= _) = Ok None => apply bind_Ok in Hent as (? & _ & Hent)
        | context [match ?x with _ => _ end] => destruct x; cbn in Hent
        | context [if ?x then _ else _] => destruct x; cbn in Hent
        end ]).
Qed.

(** X1: with [add_keys=False], a key that the base does not hold is not in
    the result, whatever the overlay holds at it. *)
Theorem add_keys_false_restricts_to_base (A B : gmap string value)
    (ex : gmap string excl) (mex : excl) (r : gmap string value) :
  dict_merge A B false (EDict ex) mex = Ok r →
  ∀ k, A !! k = None → r !! k = None.
Proof.
  intros Hr k Hk.
  pose proof (proj1 (dict_merge_Ok _ _ _ _ _ _) Hr k) as Hent.
  unfold entry_of, merge_entry in Hent. rewrite Hk in Hent. cbn in Hent.
  by injection Hent.
Qed.

(** X2: merged onto the empty dictionary, the overlay is returned whole,
    whatever the exclusions: no key of the overlay is ever excluded. *)
Theorem exclusions_spare_the_overlay (B : gmap string value)
    (ex : gmap string excl) :
  dict_merge ∅ B true (EDict ex) no_excl = Ok B.
Proof. apply dict_merge_onto_empty. Qed.

Lemma dict_merge_empty_overlay_depth (n : nat) :
  ∀ (A : gmap string value) add, (depth (VDict A) ≤ n)%nat →
    dict_merge A ∅ add no_excl no_excl = Ok A.
Proof.
  induction n as [|n IH]; intros A add Hn; [simpl in Hn; lia|].
  apply dict_merge_Ok. intros k. unfold entry_of, merge_entry.
  rewrite !lookup_empty. cbn.
  destruct (A !! k) as [v|] eqn:Hk; [|by destruct add].
  assert (Hv : (depth v ≤ n)%nat) by (apply depth_lookup in Hk; lia).
  destruct v as [| [|] | | | |d]; destruct add; cbn; rewrite ?lookup_empty; try done.
  all: change (dict_merge_rec (VDict d) ∅ ?a no_excl no_excl)
         with (dict_merge d ∅ a no_excl no_excl);
    by rewrite (IH d _ Hv).
Qed.

(** X3: merging the empty overlay without exclusions returns the base,
    nested dictionaries included. *)
Theorem empty_overlay_returns_base (A : gmap string value) (add_keys : bool) :
  dict_merge A ∅ add_keys no_excl no_excl = Ok A.
Proof. by apply (dict_merge_empty_overlay_depth (depth (VDict A))). Qed.

(** X4: with the default options the call returns, and the keys of the
    result are those of the base together with those of the overlay. *)
Theorem default_merge_domain (A B : gmap string value) :
  ∃ r, dict_merge A B true no_excl no_excl = Ok r
       ∧ dom r = dom A ∪ dom B.
Proof.
  destruct (dict_merge_plain_total _ A B true (le_n _)) as [r Hr].
  exists r. split; [done|].
  apply set_eq. intros k. rewrite elem_of_union, !elem_of_dom.
  pose proof (proj1 (dict_merge_Ok _ _ _ _ _ _) Hr k) as Hent.
  split.
  - intros [w Hw]. destruct (A !! k) eqn:HA; [by eauto|].
    destruct (B !! k) eqn:HB; [by eauto|].
    rewrite entry_of_absent in Hent by done. congruence.
  - intros Hin. destruct (A !! k) as [v|] eqn:HA.
    + destruct (r !! k) eqn:Hrk; [by eauto|].
      destruct (entry_of_Some_base A B true ∅ no_excl k v None HA Hent eq_refl)
        as [_ [? Hex]].
      by rewrite lookup_empty in Hex.
    + destruct Hin as [[? [=]]|[w HB]].
      unfold entry_of, merge_entry in Hent. rewrite HA, HB in Hent. cbn in Hent.
      rewrite lookup_empty in Hent. injection Hent as <-. by eauto.
Qed.

(** An excluded key whose base value is a dictionary. *)
Lemma marked_dict_entry (A B : gmap string value)
    (ex mex : gmap string excl) (add_keys b : bool) (k : string)
    (d : gmap string value) :
  A !! k = Some (VDict d) →
  ex !! k = Some (EMark b) →
  mex !! k = None →
  (B !! k = None ∨ ∃ m, B !! k = Some (VDict m)) →
  dict_merge A B add_keys (EDict ex) (EDict mex) = Raise TypeError.
Proof.
  intros HA Hex Hmex HB.
  apply (dict_merge_Raise _ _ _ _ _ k TypeError); [by eauto|].
  unfold entry_of, merge_entry, self_at. rewrite HA, Hex, Hmex.
  destruct HB as [->|[m ->]]; by destruct add_keys.
Qed.

(** X5: a key listed in [exclusions] with a mark, whose base value is a
    dictionary and which the overlay either lacks or maps to a dictionary,
    makes the call raise TypeError (the nested call iterates over the
    mark), unless the key is also merge-excluded. *)
Theorem marked_dict_entry_raises (A B : gmap string value)
    (ex mex : gmap string excl) (add_keys b : bool) (k : string)
    (d : gmap string value) :
  A !! k = Some (VDict d) →
  ex !! k = Some (EMark b) →
  mex !! k = None →
  (B !! k = None ∨ ∃ m, B !! k = Some (VDict m)) →
  dict_merge A B add_keys (EDict ex) (EDict mex) = Raise TypeError.
Proof. apply marked_dict_entry. Qed.

(** What [merge_exclusions = {j: True}] does: the call returns and the
    entry at [j] is the base's. *)
Lemma merge_excluded_entry (A B : gmap string value) (j : string) (add : bool) :
  ∃ r, dict_merge A B add no_excl (EDict {[j := EMark true]}) = Ok r
       ∧ r !! j = A !! j.
Proof.
  assert (Hj : entry_of A B add ∅ (EDict {[j := EMark true]}) j = Ok (A !! j)).
  { unfold entry_of, merge_entry. rewrite lookup_empty, lookup_singleton_eq.
    destruct (A !! j) as [[| [|] | | | |d]|], add, (B !! j) as [[]|]; cbn; done. }
  destruct (dict_merge_total A B add ∅ (EDict {[j := EMark true]})) as [r Hr].
  { intros k'. destruct (decide (k' = j)) as [->|Hne]; [by rewrite Hj|].
    unfold entry_of, merge_entry.
    rewrite lookup_empty, lookup_singleton_ne by done.
    destruct (A !! k') as [v|] eqn:Hv; [|by destruct add, (B !! k')].
    destruct v as [| [|] | | | |d]; cbn;
      destruct add, (B !! k') as [[]|]; cbn; try done.
    all: unfold self_at;
      match goal with
      | |- context [dict_merge_rec (VDict ?d) ?m ?a _ _] =>
          destruct (dict_merge_plain_total _ d m a (le_n _)) as [r Hr];
          unfold dict_merge in Hr; by rewrite Hr
      end. }
  exists r. split; [done|].
  pose proof (proj1 (dict_merge_Ok _ _ _ _ _ _) Hr j) as Hent.
  rewrite Hj in Hent. by injection Hent.
Qed.

(** X6: a nested merge exclusion [{k: {j: True}}] protects the entry [j] of
    the dictionary at [k]: the call returns, the result holds a dictionary
    at [k], and its entry at [j] is the base's. *)
Theorem nested_merge_exclusion (A B a b : gmap string value) (k j : string)
    (add_keys : bool) :
  A !! k = Some (VDict a) →
  B !! k = Some (VDict b) →
  ∃ r r', dict_merge A B add_keys no_excl
            (EDict {[k := EDict {[j := EMark true]}]}) = Ok r
          ∧ r !! k = Some (VDict r')
          ∧ r' !! j = a !! j.
Proof.
  intros HA HB.
  destruct (merge_excluded_entry a b j add_keys) as (r' & Hr' & Hj).
  assert (Hk : entry_of A B add_keys ∅ (EDict {[k := EDict {[j := EMark true]}]}) k
               = Ok (Some (VDict r'))).
  { unfold entry_of, merge_entry, self_at.
    rewrite HA, HB, lookup_empty, lookup_singleton_eq.
    unfold dict_merge in Hr'. destruct add_keys; cbn; by rewrite Hr'. }
  destruct (dict_merge_total A B add_keys ∅
              (EDict {[k := EDict {[j := EMark true]}]})) as [r Hr].
  { intros k'. destruct (decide (k' = k)) as [->|Hne]; [by rewrite Hk|].
    unfold entry_of, merge_entry.
    rewrite lookup_empty, lookup_singleton_ne by done.
    destruct (A !! k') as [v|] eqn:Hv; [|by destruct add_keys, (B !! k')].
    destruct v as [| [|] | | | |d]; cbn;
      destruct add_keys, (B !! k') as [[]|]; cbn; try done.
    all: unfold self_at;
      match goal with
      | |- context [dict_merge_rec (VDict ?d) ?m ?a _ _] =>
          destruct (dict_merge_plain_total _ d m a (le_n _)) as [r Hr];
          unfold dict_merge in Hr; by rewrite Hr
      end. }
  exists r, r'. split; [done|]. split; [|done].
  pose proof (proj1 (dict_merge_Ok _ _ _ _ _ _) Hr k) as Hent.
  rewrite Hk in Hent. by injection Hent.
Qed.

(** X7: with the default options the overlay has precedence: an entry of
    the overlay replaces the base's, unless both are dictionaries, in which
    case the result holds their merge. *)
Theorem overlay_precedence (A B r : gmap string value) (k : string) (v : value) :
  dict_merge A B true no_excl no_excl = Ok r →
  B !! k = Some v →
  match A !! k, v with
  | Some (VDict a), VDict b =>
      ∃ r', dict_merge a b true no_excl no_excl = Ok r' ∧ r !! k = Some (VDict r')
  | _, _ => r !! k = Some v
  end.
Proof.
  intros Hr HB.
  pose proof (proj1 (dict_merge_Ok _ _ _ _ _ _) Hr k) as Hent.
  unfold entry_of, merge_entry, self_at in Hent. rewrite HB in Hent.
  rewrite lookup_empty in Hent.
  destruct (A !! k) as [[| [|] | | | |a]|]; simpl in Hent;
    try (destruct v; simpl in Hent; rewrite ?lookup_empty in Hent; congruence).
  destruct v as [| | | | |b]; simpl in Hent; rewrite ?lookup_empty in Hent;
    try congruence.
  apply bind_Ok in Hent as (r' & Hr' & [= Hk]). by exists r'.
Qed.

(** X8: the only entries [exclusions] removes from the base are those whose
    value is [True]: a key of the base that is missing from the result was
    listed in [exclusions] and held [True]. *)
Theorem only_true_entries_are_excluded (A B r : gmap string value)
    (ex : gmap string excl) (mex : excl) (add_keys : bool) (k : string) (v : value) :
  dict_merge A B add_keys (EDict ex) mex = Ok r →
  A !! k = Some v →
  r !! k = None →
  v = VBool true ∧ is_Some (ex !! k).
Proof.
  intros Hr HA Hk.
  pose proof (proj1 (dict_merge_Ok _ _ _ _ _ _) Hr k) as Hent.
  by apply (entry_of_Some_base A B add_keys ex mex k v (r !! k)).
Qed.

(** *** Witnesses *)

Lemma add_keys_false_restricts_to_base_witness :
  dict_merge {["a" := VInt 1]} {["a" := VInt 2; "b" := VInt 3]} false
      no_excl no_excl = Ok {["a" := VInt 2]}
  ∧ ({["a" := VInt 2]} : gmap string value) !! "b" = None.
Proof.
  assert (Hr : dict_merge {["a" := VInt 1]} {["a" := VInt 2; "b" := VInt 3]} false
                 no_excl no_excl = Ok {["a" := VInt 2]})
    by (vm_compute; reflexivity).
  split; [exact Hr|].
  apply (add_keys_false_restricts_to_base _ _ _ _ _ Hr "b"). reflexivity.
Defined.

Lemma marked_dict_entry_raises_witness :
  ({["_fw_env" := VDict ∅]} : gmap string value) !! "_fw_env" = Some (VDict ∅)
  ∧ dict_merge {["_fw_env" := VDict ∅]} ∅ true
      (EDict {["_fw_env" := EMark true]}) (EDict ∅) = Raise TypeError.
Proof.
  assert (HA : ({["_fw_env" := VDict ∅]} : gmap string value) !! "_fw_env"
               = Some (VDict ∅)) by reflexivity.
  split; [exact HA|].
  apply (marked_dict_entry_raises _ ∅ {["_fw_env" := EMark true]} ∅ true true
           "_fw_env" ∅ HA); [reflexivity|reflexivity|by left].
Defined.

Lemma nested_merge_exclusion_witness :
  ∃ r r', dict_merge {["m" := VDict {["j" := VInt 1]}]}
            {["m" := VDict {["j" := VInt 2; "i" := VInt 3]}]} true no_excl
            (EDict {["m" := EDict {["j" := EMark true]}]}) = Ok r
          ∧ r !! "m" = Some (VDict r')
          ∧ r' !! "j" = ({["j" := VInt 1]} : gmap string value) !! "j".
Proof.
  apply (nested_merge_exclusion {["m" := VDict {["j" := VInt 1]}]}
           {["m" := VDict {["j" := VInt 2; "i" := VInt 3]}]}
           {["j" := VInt 1]} {["j" := VInt 2; "i" := VInt 3]} "m" "j" true);
    reflexivity.
Defined.

Lemma overlay_precedence_witness :
  dict_merge {["a" := VDict ∅]} {["a" := VInt 2]} true no_excl no_excl
    = Ok {["a" := VInt 2]}
  ∧ ({["a" := VInt 2]} : gmap string value) !! "a" = Some (VInt 2).
Proof.
  assert (Hr : dict_merge {["a" := VDict ∅]} {["a" := VInt 2]} true no_excl no_excl
               = Ok {["a" := VInt 2]}) by (vm_compute; reflexivity).
  split; [exact Hr|].
  exact (overlay_precedence _ _ _ "a" (VInt 2) Hr eq_refl).
Defined.

Lemma only_true_entries_are_excluded_witness :
  dict_merge {["a" := VBool true; "b" := VInt 1]} ∅ true
      (EDict {["a" := EMark true; "b" := EMark true]}) no_excl
    = Ok {["b" := VInt 1]}
  ∧ VBool true = VBool true
  ∧ is_Some (({["a" := EMark true; "b" := EMark true]} : gmap string excl) !! "a").
Proof.
  assert (Hr : dict_merge {["a" := VBool true; "b" := VInt 1]} ∅ true
                 (EDict {["a" := EMark true; "b" := EMark true]}) no_excl
               = Ok {["b" := VInt 1]}) by (vm_compute; reflexivity).
  split; [exact Hr|].
  apply (only_true_entries_are_excluded _ _ _ _ _ _ "a" (VBool true) Hr);
    reflexivity.
Defined.

End MergeMore.

(** ** More on [apply_mod_spec] *)

Module PropagateMore.
Import Wf Propagate Scenario More MergeFacts GraphFacts PropagateFacts.

#[local] Arguments recursive_update_spec : simpl never.

Section with_engine.
Context `{Engine}.

(** On identifiers without children, the traversal and the plain loop over
    the direct children do the same to the nodes and to [updated_ids]. *)
Lemma traversal_is_plain_loop (n : nat) lnk upd (l : list Z) :
  NoDup l → (∀ c, c ∈ l → lnk !! c = Some []) →
  ∀ st st', nodes st = nodes st' → updated_ids st = updated_ids st' →
    (∀ c, c ∈ l → c ∉ visited st) →
    (s ← recursive_update_spec (S (S n)) lnk upd l st; Ok (nodes s, updated_ids s))
    = (s ← Py.foldM (λ st cfid, update_node upd cfid st) l st';
       Ok (nodes s, updated_ids s)).
Proof.
  intros Hnd Hleaf st st'. rewrite recursive_update_spec_S. revert st st'.
  induction l as [|c l IH]; intros st st' Hn Hu Hv.
  - cbn. by rewrite Hn, Hu.
  - apply NoDup_cons in Hnd as [Hc Hnd].
    cbn [Py.foldM]. rewrite bool_decide_false by (apply Hv; by left).
    assert (H1 : update_node upd c (mark c st) =
                 match nodes st' !! c with
                 | Some fw =>
                     Ok (mkState ({[c]} ∪ visited st)
                           (<[c := set_spec fw (upd ∪ spec fw)]> (nodes st'))
                           (updated_ids st' ++ [c]))
                 | None => Raise KeyError
                 end).
    { unfold update_node. cbn [nodes mark updated_ids visited]. by rewrite Hn, Hu. }
    assert (H2 : update_node upd c st' =
                 match nodes st' !! c with
                 | Some fw =>
                     Ok (mkState (visited st')
                           (<[c := set_spec fw (upd ∪ spec fw)]> (nodes st'))
                           (updated_ids st' ++ [c]))
                 | None => Raise KeyError
                 end) by done.
    rewrite H1, H2, (Hleaf c) by (by left). clear H1 H2.
    destruct (nodes st' !! c) as [fw|]; [|done].
    rewrite !bind_Ok_l. rewrite recursive_update_spec_S. cbn [Py.foldM].
    rewrite bind_Ok_l.
    apply IH; [done|by intros; apply Hleaf; right|done|done|].
    intros c' Hc'. cbn. intros Hin. apply elem_of_union in Hin as [Hin|Hin].
    + apply elem_of_singleton in Hin. by subst.
    + by apply (Hv c'); [right|].
Qed.

(** X9: for an action without [mod_spec], the propagation flag changes
    nothing: the traversal starts at the leaves, whose child lists are
    empty, and so reaches exactly the nodes the plain loop updates. *)
Theorem propagate_flag_is_void_for_update_spec (wf : Workflow) (sd : value)
    (upd : gmap string value) (adds dets : list Workflow) :
  apply_mod_spec wf (mkFWAction sd upd [] true adds dets)
  = apply_mod_spec wf (mkFWAction sd upd [] false adds dets).
Proof.
  unfold apply_mod_spec. cbn [update_spec mod_spec propagate].
  destruct (bool_decide (upd = ∅)); cbn [negb andb]; [done|].
  rewrite (traversal_is_plain_loop (size (links wf)) (links wf) upd (leaf_fw_ids wf)
             (NoDup_leaf_fw_ids wf)
             (λ c Hc, proj1 (elem_of_leaf_fw_ids wf c) Hc)
             (mkState ∅ (id_fw wf) []) (mkState ∅ (id_fw wf) []) eq_refl eq_refl);
    [done|].
  intros c _. cbn. apply not_elem_of_empty.
Qed.

(** Applying the modifiers, in order, to a spec. *)
Lemma mod_each (mods : list value) (l : list Z) (st : state) :
  NoDup l →
  (∀ c, c ∈ l → ∃ fw, nodes st !! c = Some fw
                      ∧ is_Ok (Py.foldM (λ sp md, apply_mod md sp) mods (spec fw))) →
  ∃ st', Py.foldM (λ st cfid, mod_node mods cfid st) l st = Ok st'
    ∧ updated_ids st' = updated_ids st ++ l
    ∧ (∀ c fw, c ∈ l → nodes st !! c = Some fw →
         ∃ sp, Py.foldM (λ sp md, apply_mod md sp) mods (spec fw) = Ok sp
               ∧ nodes st' !! c = Some (set_spec fw sp))
    ∧ (∀ k, k ∉ l → nodes st' !! k = nodes st !! k).
Proof.
  revert st. induction l as [|c l IH]; intros st Hnd Hall.
  - exists st. cbn. split; [done|]. split; [by rewrite app_nil_r|].
    split; [|done]. intros c fw Hin. by apply elem_of_nil in Hin.
  - apply NoDup_cons in Hnd as [Hc Hnd].
    destruct (Hall c) as (fw & Hfw & Hrun); [by left|].
    apply is_Ok_true in Hrun as [sp Hsp].
    assert (H1 : mod_node mods c st =
                 Ok (mkState (visited st) (<[c := set_spec fw sp]> (nodes st))
                       (updated_ids st ++ [c])))
      by (unfold mod_node; by rewrite Hfw, Hsp).
    cbn [Py.foldM]. rewrite H1, bind_Ok_l. clear H1.
    set (st1 := mkState _ _ _).
    destruct (IH st1 Hnd) as (st' & Hrun' & Hids & Hin & Hout).
    { intros c' Hc'. destruct (Hall c') as (fw' & Hfw' & Hok'); [by right|].
      exists fw'. split; [|done]. subst st1. cbn.
      rewrite lookup_insert_ne by (intros ->; done). done. }
    exists st'. split; [done|]. split; [|split].
    + rewrite Hids. subst st1. cbn. by rewrite <-app_assoc.
    + intros c' fw' Hc' Hfw'. apply elem_of_cons in Hc' as [->|Hc'].
      * exists sp. rewrite Hfw in Hfw'. injection Hfw' as <-. split; [done|].
        rewrite Hout by done. subst st1. cbn. by rewrite lookup_insert_eq.
      * apply Hin; [done|]. subst st1. cbn.
        rewrite lookup_insert_ne by (intros ->; done). done.
    + intros k Hk. apply not_elem_of_cons in Hk as [Hne Hk].
      rewrite Hout by done. subst st1. cbn. by rewrite lookup_insert_ne.
Qed.

(** X10: without the propagation flag and without [update_spec], the
    operations of [mod_spec] are applied, in order, once to each leaf and
    to no other node; [updated_ids] lists the leaves. *)
Theorem mod_spec_applied_to_leaves (wf : Workflow) (action : FWAction) :
  update_spec action = ∅ → propagate action = false → mod_spec action ≠ [] →
  (∀ c, c ∈ leaf_fw_ids wf →
     ∃ fw, id_fw wf !! c = Some fw
           ∧ is_Ok (Py.foldM (λ sp md, apply_mod md sp) (mod_spec action) (spec fw))) →
  ∃ wf', apply_mod_spec wf action = Ok (wf', leaf_fw_ids wf)
    ∧ links wf' = links wf
    ∧ (∀ c fw, c ∈ leaf_fw_ids wf → id_fw wf !! c = Some fw →
         ∃ sp, Py.foldM (λ sp md, apply_mod md sp) (mod_spec action) (spec fw) = Ok sp
               ∧ id_fw wf' !! c = Some (set_spec fw sp))
    ∧ (∀ k, k ∉ leaf_fw_ids wf → id_fw wf' !! k = id_fw wf !! k).
Proof.
  intros Hupd Hprop Hmod Hall. unfold apply_mod_spec.
  rewrite Hupd, Hprop, bool_decide_true by done. cbn [negb andb].
  rewrite bind_Ok_l. cbn [fst snd].
  destruct (mod_spec action) as [|m mods] eqn:Hm; [done|]. cbn [andb].
  destruct (mod_each (m :: mods) (leaf_fw_ids wf) (mkState ∅ (id_fw wf) []))
    as (st' & Hrun & Hids & Hin & Hout);
    [apply NoDup_leaf_fw_ids|exact Hall|].
  rewrite Hrun, !bind_Ok_l. cbn [fst snd]. rewrite Hids. cbn.
  eexists. split; [done|]. cbn. split; [done|]. split; [exact Hin|exact Hout].
Qed.

(** X11: with the propagation flag, [update_spec] is applied exactly once to
    each leaf and to no other node; [updated_ids] lists each leaf once. *)
Theorem update_spec_reaches_each_leaf_once (wf : Workflow) (action : FWAction) :
  update_spec action ≠ ∅ → propagate action = true → mod_spec action = [] →
  (∀ c, c ∈ leaf_fw_ids wf → is_Some (id_fw wf !! c)) →
  ∃ wf', apply_mod_spec wf action = Ok (wf', leaf_fw_ids wf)
    ∧ NoDup (leaf_fw_ids wf)
    ∧ links wf' = links wf
    ∧ ∀ k, id_fw wf' !! k =
           if bool_decide (k ∈ leaf_fw_ids wf)
           then (λ fw, set_spec fw (update_spec action ∪ spec fw)) <$> id_fw wf !! k
           else id_fw wf !! k.
Proof. apply update_spec_propagation_once. Qed.

(** X12: with the propagation flag, a non-empty [mod_spec] makes the call
    raise on every workflow that has a leaf. *)
Theorem mod_spec_with_propagate_always_raises (wf : Workflow) (action : FWAction) :
  mod_spec action ≠ [] → propagate action = true → leaf_fw_ids wf ≠ [] →
  ∃ e, apply_mod_spec wf action = Raise e.
Proof. apply mod_spec_propagation_never_returns. Qed.

Lemma spec_only_refl (m : gmap Z Firework) : spec_only m m.
Proof.
  intros k. destruct (m !! k) as [fw|] eqn:Hk; [|done].
  exists (spec fw). by destruct fw.
Qed.

Lemma spec_only_trans (a b c : gmap Z Firework) :
  spec_only a b → spec_only b c → spec_only a c.
Proof.
  intros Hab Hbc k. specialize (Hab k). specialize (Hbc k).
  destruct (a !! k) as [fw|].
  - destruct Hab as [sp Hb]. rewrite Hb in Hbc. destruct Hbc as [sp' Hc].
    exists sp'. by rewrite Hc.
  - by rewrite Hab in Hbc.
Qed.

Lemma spec_only_insert (m : gmap Z Firework) c fw sp :
  m !! c = Some fw → spec_only m (<[c := set_spec fw sp]> m).
Proof.
  intros Hc k. destruct (decide (k = c)) as [->|Hne].
  - rewrite Hc, lookup_insert_eq. by eexists.
  - rewrite lookup_insert_ne by done. apply spec_only_refl.
Qed.

Lemma foldM_spec_only {A} (f : state → A → result state) (l : list A) :
  (∀ st x st', f st x = Ok st' → spec_only (nodes st) (nodes st')) →
  ∀ st st', Py.foldM f l st = Ok st' → spec_only (nodes st) (nodes st').
Proof.
  intros Hstep. induction l as [|x l IH]; intros st st' Hrun.
  - injection Hrun as <-. apply spec_only_refl.
  - cbn [Py.foldM] in Hrun. apply bind_Ok in Hrun as (st1 & H1 & Hrest).
    eapply spec_only_trans; [by eapply Hstep|by apply IH].
Qed.

Lemma update_node_spec_only upd c st st' :
  update_node upd c st = Ok st' → spec_only (nodes st) (nodes st').
Proof.
  unfold update_node. destruct (nodes st !! c) as [fw|] eqn:Hc; [|done].
  intros [= <-]. cbn [nodes]. by apply spec_only_insert.
Qed.

Lemma mod_node_spec_only mods c st st' :
  mod_node mods c st = Ok st' → spec_only (nodes st) (nodes st').
Proof.
  unfold mod_node. destruct (nodes st !! c) as [fw|] eqn:Hc; [|done].
  intros Hrun. apply bind_Ok in Hrun as (sp & _ & [= <-]). cbn [nodes].
  by apply spec_only_insert.
Qed.

Lemma recursive_update_spec_only (n : nat) lnk upd (l : list Z) st st' :
  recursive_update_spec n lnk upd l st = Ok st' → spec_only (nodes st) (nodes st').
Proof.
  revert l st st'. induction n as [|n IH]; intros l st st' Hrun; [done|].
  rewrite recursive_update_spec_S in Hrun.
  eapply foldM_spec_only; [|exact Hrun].
  intros st0 c st0' Hstep. cbv beta in Hstep.
  case_bool_decide; [injection Hstep as <-; apply spec_only_refl|].
  apply bind_Ok in Hstep as (st1 & Hupd & Hrec).
  destruct (lnk !! c) as [children|]; [|done].
  eapply spec_only_trans; [|by eapply IH].
  apply update_node_spec_only in Hupd. exact Hupd.
Qed.

Lemma recursive_mod_spec_only mods (l : list Z) st st' :
  recursive_mod_spec mods l st = Ok st' → spec_only (nodes st) (nodes st').
Proof.
  unfold recursive_mod_spec. apply foldM_spec_only.
  intros st0 c st0' Hstep. cbv beta in Hstep.
  case_bool_decide; [injection Hstep as <-; apply spec_only_refl|].
  by destruct (mod_node mods c (mark c st0)).
Qed.

(** X13: whatever the action, a call that returns has rewritten specs
    only: the edges, the set of nodes, and the identifier, name and tasks
    of every node are as before. *)
Theorem apply_mod_spec_rewrites_specs_only (wf wf' : Workflow) (action : FWAction)
    (ids : list Z) :
  apply_mod_spec wf action = Ok (wf', ids) →
  links wf' = links wf ∧ spec_only (id_fw wf) (id_fw wf').
Proof.
  unfold apply_mod_spec. intros Hrun.
  apply bind_Ok in Hrun as ([n1 u1] & H1 & Hrun).
  apply bind_Ok in Hrun as ([n2 u2] & H2 & [= <- <-]). cbn [links id_fw fst snd] in *.
  split; [done|].
  assert (S1 : spec_only (id_fw wf) n1).
  { destruct (negb (bool_decide (update_spec action = ∅))), (propagate action);
      cbn [andb] in H1.
    - apply bind_Ok in H1 as (st & Hst & [= <- <-]).
      by apply recursive_update_spec_only in Hst.
    - apply bind_Ok in H1 as (st & Hst & [= <- <-]).
      apply (foldM_spec_only (λ st cfid, update_node (update_spec action) cfid st))
        in Hst; [done|]. intros ? ? ?. apply update_node_spec_only.
    - injection H1 as <- <-. apply spec_only_refl.
    - injection H1 as <- <-. apply spec_only_refl. }
  eapply spec_only_trans; [exact S1|].
  destruct (mod_spec action) as [|m mods], (propagate action); cbn [andb] in H2.
  - injection H2 as <- <-. apply spec_only_refl.
  - injection H2 as <- <-. apply spec_only_refl.
  - apply bind_Ok in H2 as (st & Hst & [= <- <-]).
    by apply recursive_mod_spec_only in Hst.
  - apply bind_Ok in H2 as (st & Hst & [= <- <-]).
    apply (foldM_spec_only (λ st cfid, mod_node (m :: mods) cfid st)) in Hst; [done|].
    intros ? ? ?. apply mod_node_spec_only.
Qed.

End with_engine.

(** *** Witnesses, on the diamond *)

Lemma diamond_leaf : leaf_fw_ids diamond = [-4].
Proof. vm_compute. reflexivity. Qed.

Lemma update_spec_reaches_each_leaf_once_witness :
  ∃ wf', @apply_mod_spec prev_engine diamond update_action = Ok (wf', leaf_fw_ids diamond)
         ∧ links wf' = links diamond.
Proof.
  destruct (@update_spec_reaches_each_leaf_once prev_engine diamond update_action)
    as (wf' & Hrun & _ & Hl & _).
  - intros Hx. apply (f_equal (lookup "x")) in Hx. vm_compute in Hx. discriminate Hx.
  - reflexivity.
  - reflexivity.
  - intros c Hc. rewrite diamond_leaf in Hc. apply list_elem_of_singleton in Hc as ->.
    by eexists.
  - exists wf'. by split.
Defined.

Lemma mod_spec_with_propagate_always_raises_witness :
  leaf_fw_ids diamond ≠ []
  ∧ ∃ e, @apply_mod_spec prev_engine diamond mod_action = Raise e.
Proof.
  assert (Hleaf : leaf_fw_ids diamond ≠ []) by (by rewrite diamond_leaf).
  split; [exact Hleaf|].
  apply (@mod_spec_with_propagate_always_raises prev_engine diamond mod_action);
    [discriminate|reflexivity|exact Hleaf].
Defined.

Lemma mod_spec_applied_to_leaves_witness :
  ∃ wf', @apply_mod_spec prev_engine diamond direct_mod_action
           = Ok (wf', leaf_fw_ids diamond)
         ∧ links wf' = links diamond.
Proof.
  destruct (@mod_spec_applied_to_leaves prev_engine diamond direct_mod_action)
    as (wf' & Hrun & Hl & _).
  - reflexivity.
  - reflexivity.
  - discriminate.
  - intros c Hc. rewrite diamond_leaf in Hc. apply list_elem_of_singleton in Hc as ->.
    exists (node (-4)). split; [reflexivity|]. by vm_compute.
  - exists wf'. by split.
Defined.

Lemma apply_mod_spec_rewrites_specs_only_witness :
  ∃ wf' ids, @apply_mod_spec prev_engine diamond direct_mod_action = Ok (wf', ids)
             ∧ links wf' = links diamond.
Proof.
  destruct (@apply_mod_spec prev_engine diamond direct_mod_action)
    as [[wf' ids]|e] eqn:Hr; [|vm_compute in Hr; discriminate Hr].
  exists wf', ids. split; [reflexivity|].
  exact (proj1 (@apply_mod_spec_rewrites_specs_only prev_engine _ _ _ _ Hr)).
Defined.

End PropagateMore.

(** ** More on the stages of [run_task] *)

Module TaskMore.
Import Wf Task Scenario More MergeFacts CollectFacts GraphFacts.

(** The normalisation of the destinations, over any non-empty list. *)
Lemma dests_length (n : nat) (dests1 : list string) :
  dests1 ≠ [] →
  length (let dests2 :=
            if bool_decide (length dests1 = 1%nat)
            then concat (replicate n dests1)
            else dests1 in
          if bool_decide (1 < length dests2)%nat
             && negb (bool_decide (n = length dests2))
          then replicate n curdir
          else dests2) = n.
Proof.
  intros Hne. cbv zeta.
  assert (Hrep : ∀ x : string, length (concat (replicate n [x])) = n).
  { intros x. induction n as [|m IH]; [done|]. simpl. by rewrite IH. }
  destruct dests1 as [|x [|y l]]; [done| |].
  - rewrite (bool_decide_true (length [x] = 1%nat)) by done.
    rewrite Hrep, (bool_decide_true (n = n)) by done.
    by rewrite andb_false_r.
  - rewrite (bool_decide_false (length (x :: y :: l) = 1%nat)) by (simpl; lia).
    rewrite (bool_decide_true (1 < length (x :: y :: l))%nat) by (simpl; lia).
    cbn [andb]. case_bool_decide as H3; cbn [negb]; [done|].
    by rewrite length_replicate.
Qed.

(** X14: whatever the shape of [restart_file_dests] (missing, a string, a
    list of any length), the normalisation leaves exactly one destination
    per restart glob pattern. *)
Theorem one_destination_per_pattern (p : params) :
  length (file_dests p) = length (glob_patterns p).
Proof.
  unfold file_dests. cbv zeta.
  destruct (restart_file_dests p) as [[[|a s]|[|x l]]|];
    by apply dests_length.
Qed.

(** X15: the recovery flag is off exactly when the job spec holds neither
    ['_job_info'] nor ['_fizzled_parents'], and then no record and no
    directory are known; a handed-down ['_job_info'] is the record used,
    whether or not a fizzled parent is recorded as well. *)
Theorem recover_flag (fw_spec : gmap string value) (prev prefix : value) (r : bool) :
  classify fw_spec = Ok (prev, prefix, r) →
  (r = false ↔ fw_spec !! "_job_info" = None ∧ fw_spec !! "_fizzled_parents" = None)
  ∧ (r = false → prev = VNone ∧ prefix = VNone)
  ∧ (∀ job_info, fw_spec !! "_job_info" = Some job_info →
       Py.getitem_last job_info = Ok prev ∧ Py.getitem prev "launch_dir" = Ok prefix).
Proof.
  unfold classify. intros Hc.
  destruct (fw_spec !! "_job_info") as [ji|] eqn:Hj.
  - apply bind_Ok in Hc as (pj & Hpj & Hc). apply bind_Ok in Hc as (pp & Hpp & Hc).
    apply bind_Ok in Hc as (? & _ & Hc). apply bind_Ok in Hc as (? & _ & Hc).
    injection Hc as <- <- <-.
    split; [split; [done|by intros [? _]]|]. split; [done|].
    intros ? [= <-]. done.
  - destruct (fw_spec !! "_fizzled_parents") as [fp|] eqn:Hf.
    + apply bind_Ok in Hc as (pj & Hpj & Hc). apply bind_Ok in Hc as (? & _ & Hc).
      apply bind_Ok in Hc as (? & _ & Hc). apply bind_Ok in Hc as (pp & _ & Hc).
      apply bind_Ok in Hc as (? & _ & Hc). apply bind_Ok in Hc as (? & _ & Hc).
      injection Hc as <- <- <-.
      split; [split; [done|by intros [_ ?]]|]. split; done.
    + injection Hc as <- <- <-. split; [done|]. split; done.
Qed.

Section with_engine.
Context `{Engine}.

(** A loop whose every turn succeeds without changing the state. *)
Lemma foldM_unit {A} (f : unit → A → result unit) (l : list A) :
  (∀ x, x ∈ l → f () x = Ok ()) → Py.foldM f l () = Ok ().
Proof.
  induction l as [|x l IH]; intros Hall; [done|].
  cbn [Py.foldM]. rewrite Hall by (by left). cbn [mbind result_bind].
  apply IH. intros y Hy. apply Hall. by right.
Qed.

(** Collecting the matches of a list of patterns. *)
Lemma collect_matches_total (prefix : value) (pats : list string) (acc : list string) :
  (∀ pat, pat ∈ pats → is_Ok (glob_under prefix (VStr pat))) →
  ∃ l, Py.foldM (λ acc pat, fs ← glob_under prefix (VStr pat); Ok (acc ++ fs))
         pats acc = Ok l.
Proof.
  revert acc. induction pats as [|pat pats IH]; intros acc Hall; [by eexists|].
  cbn [Py.foldM].
  destruct (proj1 (is_Ok_true (glob_under prefix (VStr pat)))) as [fs Hfs];
    [apply Hall; by left|].
  rewrite Hfs. cbn [mbind result_bind]. apply IH. intros q Hq. apply Hall. by right.
Qed.

(** X16: with [ignore_errors] set, forwarding the other files succeeds
    whenever the glob calls do, whatever happens to the copies. *)
Theorem copy_errors_are_ignored (p : params) (path_prefix : value) :
  ignore_errors p = true →
  (∀ pat, pat ∈ other_patterns (other_glob_patterns p) →
     is_Ok (glob_under path_prefix (VStr pat))) →
  forward_other_files p path_prefix = Ok ().
Proof.
  intros Hign Hglob. unfold forward_other_files.
  destruct (collect_matches_total path_prefix _ [] Hglob) as [l Hl].
  rewrite Hl. cbn [mbind result_bind].
  apply foldM_unit. intros f _. rewrite Hign. by destruct (shutil_copy f getcwd).
Qed.

Lemma copy_restart_files_cons (fd : string * string) (l : list (string * string)) :
  copy_restart_files (fd :: l) = (_ ← shutil_copy fd.1 fd.2; copy_restart_files l).
Proof.
  unfold copy_restart_files. cbn [Py.foldM].
  destruct (shutil_copy fd.1 fd.2) as [[]|e]; done.
Qed.

Lemma copy_restart_files_Raise (l : list (string * string)) fd e :
  fd ∈ l → shutil_copy fd.1 fd.2 = Raise e → ∃ e', copy_restart_files l = Raise e'.
Proof.
  intros Hin Hcopy. induction l as [|fd0 l IH]; [by apply elem_of_nil in Hin|].
  rewrite copy_restart_files_cons.
  destruct (shutil_copy fd0.1 fd0.2) as [[]|e0] eqn:H0; [|by eexists].
  cbn [mbind result_bind]. apply IH.
  apply elem_of_cons in Hin as [->|Hin]; [congruence|done].
Qed.

(** X17: there is no [ignore_errors] for restart files: in a recovery, a
    failing copy of one of the selected restart files makes [run_task]
    raise. *)
Theorem restart_copy_failure_is_fatal (p : params) (fw_spec : gmap string value)
    (prev path_prefix : value) (l : list (string * string)) (fd : string * string)
    (e : exn) :
  classify fw_spec = Ok (prev, path_prefix, true) →
  forward_other_files p path_prefix = Ok () →
  find_restart_files p path_prefix = Ok l →
  fd ∈ l → shutil_copy fd.1 fd.2 = Raise e →
  ∃ e', run_task p fw_spec = Raise e'.
Proof.
  intros Hc Hfwd Hfind Hin Hcopy.
  destruct (copy_restart_files_Raise l fd e Hin Hcopy) as [e' He'].
  exists e'. unfold run_task. rewrite Hc. cbn [mbind result_bind].
  rewrite Hfwd. cbn [mbind result_bind]. rewrite Hfind. cbn [mbind result_bind].
  by rewrite He'.
Qed.

(** With [fizzle_on_no_restart_file] set, a pattern that goes through
    selects exactly one of its matches. *)
Lemma select_one_when_fizzling (p : params) prefix pat dest sel :
  fizzle_on_no_restart_file p = true →
  select_restart_file p prefix pat dest = Ok sel →
  ∃ f found, sel = [(f, dest)] ∧ glob_under prefix (VStr pat) = Ok found ∧ f ∈ found.
Proof.
  intros Hfz. unfold select_restart_file. intros Hsel.
  apply bind_Ok in Hsel as (found & Hglob & Hsel).
  destruct found as [|a [|b found']].
  - by rewrite Hfz in Hsel.
  - injection Hsel as <-. exists a, [a]. split; [done|]. split; [done|by left].
  - destruct (last (sorted_by getmtime (a :: b :: found'))) as [f|] eqn:Hlast; [|done].
    injection Hsel as <-. exists f, (a :: b :: found'). split; [done|]. split; [done|].
    by apply (most_recent_last getmtime).
Qed.

(** X18: with [fizzle_on_no_restart_file] set, a search that goes through
    returns exactly one file per restart glob pattern, a match of that
    pattern, paired with the pattern's destination, in the order of the
    patterns. *)
Theorem one_restart_file_per_pattern (p : params) (path_prefix : value)
    (l : list (string * string)) :
  fizzle_on_no_restart_file p = true →
  find_restart_files p path_prefix = Ok l →
  l.*2 = file_dests p
  ∧ Forall2 (λ pat f, ∃ found, glob_under path_prefix (VStr pat) = Ok found ∧ f ∈ found)
      (glob_patterns p) l.*1.
Proof.
  intros Hfz Hfind. unfold find_restart_files in Hfind.
  apply find_restart_files_fold in Hfind as (sels & Hsels & ->). cbn [app].
  assert (Hlen : length (file_dests p) = length (glob_patterns p)).
  { unfold file_dests. cbv zeta.
    destruct (restart_file_dests p) as [[[|a s]|[|x l']]|]; by apply dests_length. }
  revert Hsels Hlen. generalize (file_dests p) (glob_patterns p).
  intros dests pats. revert dests sels.
  induction pats as [|pat pats IH]; intros [|dest dests] sels Hsels Hlen;
    try discriminate.
  - inversion Hsels; subst. split; [done|constructor].
  - cbn [zip zip_with] in Hsels.
    inversion Hsels as [|? sel ? sels' Hsel Hrest]; subst.
    destruct (select_one_when_fizzling _ _ _ _ _ Hfz Hsel) as (f & found & -> & Hg & Hin).
    destruct (IH dests sels' Hrest) as [IH1 IH2]; [by injection Hlen|].
    cbn [concat app]. rewrite !fmap_cons. cbn [fst snd].
    split; [by rewrite IH1|]. constructor; [by eauto|done].
Qed.

(** An action without update and without modifier leaves a workflow as it
    is. *)
Lemma apply_mod_spec_void (wf : Workflow) sd pr adds dets :
  Propagate.apply_mod_spec wf (mkFWAction sd ∅ [] pr adds dets) = Ok (wf, []).
Proof.
  unfold Propagate.apply_mod_spec. cbn [update_spec mod_spec Wf.propagate].
  rewrite bool_decide_true by done. cbn. by destruct wf.
Qed.

(** X19: without an output key the action carries no spec modification,
    and the addition and the detour are handed over exactly as built,
    whatever the two [apply_mod_spec_to_*] flags say. *)
Theorem no_output_key_leaves_fragments (p : params) (addition detour : option Workflow) :
  output p = None ∨ output p = Some EmptyString →
  ∃ sd, emit_action p addition detour
        = Ok (mkFWAction sd ∅ [] (Task.propagate p)
                (option_list addition) (option_list detour)).
Proof.
  intros Hout. unfold emit_action. cbv zeta.
  assert (Hm : match output p with
               | Some (String c k) =>
                   [VDict {[dict_mod p :=
                      VDict {[String c k :=
                        VDict (if store_stdlog p
                               then {["stdlog" := VStr (stdlog p)]} else ∅)]}]}]
               | _ => []
               end = []) by (by destruct Hout as [-> | ->]).
  rewrite Hm. eexists.
  destruct addition as [a|], detour as [d|];
    destruct (apply_mod_spec_to_addition_wf p), (apply_mod_spec_to_detour_wf p);
    rewrite ?apply_mod_spec_void; cbn; reflexivity.
Qed.

(** X20: [write_files_prev] changes nothing but the ['_files_prev'] entry of
    the spec of root nodes: the edges, the set of nodes, and the identifier,
    name and tasks of every node stay as they are. *)
Theorem files_prev_is_all_that_changes (w : Workflow) (fw_spec : gmap string value)
    (r : option Workflow) :
  write_files_prev (Some w) fw_spec = Ok r →
  ∃ w', r = Some w' ∧ links w' = links w
    ∧ ∀ k, match id_fw w !! k with
           | Some fw =>
               ∃ fw', id_fw w' !! k = Some fw'
                 ∧ fw_id fw' = fw_id fw ∧ name fw' = name fw ∧ tasks fw' = tasks fw
                 ∧ (∀ key, key ≠ "_files_prev" → spec fw' !! key = spec fw !! key)
                 ∧ (∀ roots, root_wf_ids w = Ok roots → fw_id fw ∉ roots → fw' = fw)
           | None => id_fw w' !! k = None
           end.
Proof.
  unfold write_files_prev. intros Hw.
  assert (Hsame : ∃ w', Some w = Some w' ∧ links w' = links w
    ∧ ∀ k, match id_fw w !! k with
           | Some fw =>
               ∃ fw', id_fw w' !! k = Some fw'
                 ∧ fw_id fw' = fw_id fw ∧ name fw' = name fw ∧ tasks fw' = tasks fw
                 ∧ (∀ key, key ≠ "_files_prev" → spec fw' !! key = spec fw !! key)
                 ∧ (∀ roots, root_wf_ids w = Ok roots → fw_id fw ∉ roots → fw' = fw)
           | None => id_fw w' !! k = None
           end).
  { exists w. split; [done|]. split; [done|]. intros k.
    destruct (id_fw w !! k) as [fw|]; [|done]. exists fw. by repeat split. }
  destruct (fw_spec !! "_files_out") as [fo|]; [|by injection Hw as <-].
  destruct (Py.truthy fo); cbn [negb] in Hw; [|by injection Hw as <-].
  clear Hsame.
  apply bind_Ok in Hw as (items & _ & Hw). apply bind_Ok in Hw as (fp & _ & Hw).
  apply bind_Ok in Hw as (w' & Hfor & [= <-]).
  apply for_each_fw_Ok in Hfor as [Hl Hn].
  exists w'. split; [done|]. split; [done|]. intros k. specialize (Hn k).
  destruct (id_fw w !! k) as [fw|]; [|done].
  destruct Hn as (fw' & Hg & Hk). apply bind_Ok in Hg as (roots & Hroots & [= <-]).
  eexists. split; [exact Hk|].
  case_bool_decide as Hroot.
  - split; [done|]. split; [done|]. split; [done|]. split.
    + intros key Hkey. cbn. by rewrite lookup_insert_ne.
    + intros roots' Hr'. rewrite Hroots in Hr'. by injection Hr' as <-.
  - by repeat split.
Qed.

(** X21: when the restart count has reached its maximum, no detour is
    configured and the job declares output files, the recovery stage raises:
    [write_files_prev] is handed [None] for a workflow. *)
Theorem files_out_without_fragment_raises (p : params) (next : Z)
    (prev_job_info : value) (fw_spec : gmap string value) (files_out : value) :
  build_restart p next prev_job_info = Ok None →
  fw_spec !! "_files_out" = Some files_out → Py.truthy files_out = true →
  ∃ e, recover_stage p next prev_job_info fw_spec None = Raise e.
Proof.
  intros Hb Hfo Ht. unfold recover_stage. rewrite Hb. cbn [mbind result_bind fst snd].
  unfold write_files_prev. rewrite Hfo, Ht. cbn [negb].
  destruct files_out as [| | | | |d]; cbn [mbind result_bind]; try by eexists.
  destruct (Py.foldM _ (map_to_list d) ∅); cbn [mbind result_bind]; by eexists.
Qed.

(** X22: a record of the previous job that holds no spec makes the attempt
    the one of count 0: the [KeyError] of [prev_job_info['spec']] is taken
    for a missing counter. *)
Theorem record_without_spec_counts_zero (d : gmap string value) (counter : string) :
  d !! "spec" = None → restart_count_of (VDict d) counter = Ok 0.
Proof.
  intros Hd. unfold restart_count_of. cbn [Py.truthy Py.contains Py.getitem].
  rewrite Hd.
  rewrite (bool_decide_false (is_Some (@None value))) by (by intros [? ?]).
  cbn [mbind result_bind except_KeyError].
  by destruct (negb (bool_decide (d = ∅))).
Qed.

(** X23: superposing a single-node fragment on a parent spec in which a key
    excluded by a mark holds a dictionary raises TypeError: the exclusion
    mark arrives as [exclusions] of the nested merge. *)
Theorem superposing_on_excluded_dict_raises (next : Z) (obj sp b d : gmap string value)
    (ex : gmap string excl) (k : string) (m : bool) :
  obj !! "spec" = Some (VDict sp) →
  b !! k = Some (VDict d) → ex !! k = Some (EMark m) →
  (sp !! k = None ∨ ∃ x, sp !! k = Some (VDict x)) →
  appendable_wf_from_dict next (VDict obj) (VDict b) (EDict ex) = Raise TypeError.
Proof.
  intros Hsp Hb Hex Hk. unfold appendable_wf_from_dict.
  rewrite bool_decide_true by (by rewrite Hsp; eexists).
  assert (Hne : b ≠ ∅) by (intros ->; by rewrite lookup_empty in Hb).
  cbn [Py.truthy]. rewrite (bool_decide_false _ Hne). cbn [negb].
  unfold merge_base. cbn [Py.getitem]. rewrite Hsp. cbn [mbind result_bind].
  unfold Merge.dict_merge_values. change no_excl with (EDict ∅).
  rewrite (MergeMore.marked_dict_entry b sp ex ∅ true m k d Hb Hex (lookup_empty k) Hk).
  done.
Qed.

(** X24: when the restart fragment is built and the job declares no output
    files, the recovery stage returns the combined fragment with one more
    node, the repeated recovery node, child of every leaf; with
    [fw_spec_to_exclude] given as a list, the node's spec is the whole spec
    of the current job, the listed keys included. *)
Theorem recovery_node_inherits_whole_spec (p : params) (next : Z) (prev_job_info : value)
    (fw_spec : gmap string value) (detour : option Workflow)
    (restart merged : Workflow) (n : Z) (l : list string) :
  build_restart p next prev_job_info = Ok (Some (restart, n)) →
  fw_spec_to_exclude p = inl l →
  merge_insertions detour restart = Ok merged →
  n < 0 → links merged !! n = None →
  fw_spec !! "_files_out" = None →
  ∃ wf', recover_stage p next prev_job_info fw_spec detour = Ok (Some wf', n - 1)
    ∧ id_fw wf' = <[n := mkFirework n fw_spec (repeated_recover_fw_name p)
                           (VList [recover_ft p])]> (id_fw merged)
    ∧ ∀ leaf, leaf ∈ leaf_fw_ids merged → links wf' !! leaf = Some [n].
Proof.
  intros Hb Hl Hm Hneg Hfree Hfo. unfold recover_stage.
  rewrite Hb. cbn [mbind result_bind].
  rewrite (TaskFacts.recover_fw_spec_whole p fw_spec l Hl). cbn [mbind result_bind].
  rewrite Hm. cbn [mbind result_bind].
  destruct (TaskFacts.recovery_node_below_every_leaf p n fw_spec merged Hneg Hfree)
    as (wf' & Hrun & Hid & Hleaf).
  rewrite Hrun. cbn [mbind result_bind fst snd].
  unfold write_files_prev. rewrite Hfo. cbn [mbind result_bind fst snd].
  exists wf'. split; [done|]. split; done.
Qed.

(** X25: the restart fragment is not optional in a recovery: when the
    count allows a restart and [restart_wf] is not a dictionary (it
    defaults to [None]), the recovery stage raises ValueError, detour or
    not. *)
Theorem restart_wf_is_mandatory (p : params) (next : Z) (prev_job_info : value)
    (fw_spec : gmap string value) (detour : option Workflow) (count : Z) :
  restart_count_of prev_job_info (restart_counter p) = Ok count →
  count < max_restarts p + 1 →
  is_Ok (parent_base_spec (superpose_restart_on_parent_fw_spec p) prev_job_info) →
  (∀ d, restart_wf p ≠ VDict d) →
  recover_stage p next prev_job_info fw_spec detour = Raise ValueError.
Proof.
  intros Hc Hlt Hbase Hr. unfold recover_stage, build_restart.
  rewrite Hc. cbn [mbind result_bind]. rewrite bool_decide_true by done.
  apply is_Ok_true in Hbase as [base ->]. cbn [mbind result_bind].
  unfold appendable_wf_from_dict.
  destruct (restart_wf p) as [| | | | |d] eqn:Hw; try done. by destruct (Hr d).
Qed.

(** X26: without a record of a previous job and without a configured
    detour or addition, the task returns an action that inserts nothing:
    the restart fragment is not built, whatever [restart_wf] holds and
    whatever the engine would answer. *)
Theorem nothing_inserted_without_record (p : params) (fw_spec : gmap string value) :
  fw_spec !! "_job_info" = None → fw_spec !! "_fizzled_parents" = None →
  (∀ d, detour_wf p ≠ VDict d) → (∀ d, addition_wf p ≠ VDict d) →
  ∃ sd mods, run_task p fw_spec = Ok (mkFWAction sd ∅ mods (Task.propagate p) [] []).
Proof.
  intros Hj Hf Hd Ha. unfold run_task, classify. rewrite Hj, Hf.
  cbn [mbind result_bind].
  assert (Hdet : build_detour p (-1) VNone = Ok (None, -1)).
  { unfold build_detour. destruct (detour_wf p) as [| | | | |d] eqn:Hdw; try done.
    by destruct (Hd d). }
  rewrite Hdet. cbn [mbind result_bind fst snd].
  assert (Hadd : build_addition p (-1) VNone fw_spec = Ok (None, -1)).
  { unfold build_addition. destruct (addition_wf p) as [| | | | |d] eqn:Haw; try done.
    by destruct (Ha d). }
  rewrite Hadd. cbn [mbind result_bind fst snd].
  unfold emit_action. cbn. by eexists _, _.
Qed.

End with_engine.

(** *** Witnesses *)

Lemma recover_flag_witness :
  classify spec_both_records
    = Ok (VDict {["launch_dir" := VStr "/handed"; "name" := VStr "pre";
                  "fw_id" := VInt 3]}, VStr "/handed", true)
  ∧ ¬ (spec_both_records !! "_job_info" = None
       ∧ spec_both_records !! "_fizzled_parents" = None).
Proof.
  assert (Hc : classify spec_both_records
               = Ok (VDict {["launch_dir" := VStr "/handed"; "name" := VStr "pre";
                             "fw_id" := VInt 3]}, VStr "/handed", true))
    by (vm_compute; reflexivity).
  split; [exact Hc|]. intros Hn.
  pose proof (proj2 (proj1 (recover_flag _ _ _ _ Hc)) Hn) as Hr. discriminate Hr.
Defined.

Lemma copy_errors_are_ignored_witness :
  shutil_copy (Engine := readonly_engine) "/prev/job.restart3"
    (getcwd (Engine := readonly_engine)) = Raise OSError
  ∧ @forward_other_files readonly_engine forwarding (VStr "/prev") = Ok ().
Proof.
  split; [reflexivity|].
  apply (@copy_errors_are_ignored readonly_engine forwarding (VStr "/prev"));
    [reflexivity|].
  intros pat Hin. change (pat ∈ ["*.restart[0-9]"%string]) in Hin.
  apply list_elem_of_singleton in Hin as ->. by vm_compute.
Defined.

Lemma restart_copy_failure_is_fatal_witness :
  ignore_errors recovery = true
  ∧ ∃ e, @run_task readonly_engine recovery spec_count_2 = Raise e.
Proof.
  split; [reflexivity|].
  apply (@restart_copy_failure_is_fatal readonly_engine recovery spec_count_2
           (fizzled_parent {["restart_count" := VInt 2]}) (VStr "/prev")
           [("/prev/job.restart7", ".")]%string ("/prev/job.restart7", ".")%string
           OSError).
  - vm_compute. reflexivity.
  - vm_compute. reflexivity.
  - vm_compute. reflexivity.
  - by left.
  - reflexivity.
Defined.

Lemma one_restart_file_per_pattern_witness :
  @find_restart_files (Reference.engine two_kinds) two_patterns (VStr "/prev")
    = Ok [("/prev/job.restart7", "in.restart"); ("/prev/job.chk", "in.chk")]%string
  ∧ [("/prev/job.restart7", "in.restart"); ("/prev/job.chk", "in.chk")]%string.*2
    = file_dests two_patterns.
Proof.
  assert (Hf : @find_restart_files (Reference.engine two_kinds) two_patterns (VStr "/prev")
               = Ok [("/prev/job.restart7", "in.restart");
                     ("/prev/job.chk", "in.chk")]%string)
    by (vm_compute; reflexivity).
  split; [exact Hf|].
  exact (proj1 (@one_restart_file_per_pattern (Reference.engine two_kinds) two_patterns
                  (VStr "/prev") _ eq_refl Hf)).
Defined.

Lemma no_output_key_leaves_fragments_witness :
  ∃ sd, @emit_action prev_engine recovery None (Some diamond)
        = Ok (mkFWAction sd ∅ [] false [] [diamond]).
Proof.
  apply (@no_output_key_leaves_fragments prev_engine recovery None (Some diamond)).
  by left.
Defined.

Lemma files_prev_is_all_that_changes_witness :
  ∃ w', @write_files_prev prev_engine (Some diamond)
          {["_files_out" := VDict {["log" := VStr "log.*"]}]} = Ok (Some w')
        ∧ links w' = links diamond.
Proof.
  destruct (@write_files_prev prev_engine (Some diamond)
              {["_files_out" := VDict {["log" := VStr "log.*"]}]}) as [r|e] eqn:Hr;
    [|vm_compute in Hr; discriminate Hr].
  destruct (@files_prev_is_all_that_changes prev_engine _ _ _ Hr) as (w' & -> & Hl & _).
  exists w'. by split.
Defined.

Lemma files_out_without_fragment_raises_witness :
  @build_restart prev_engine restart_only (-1)
      (fizzled_parent {["restart_count" := VInt 5]}) = Ok None
  ∧ ∃ e, @recover_stage prev_engine restart_only (-1)
           (fizzled_parent {["restart_count" := VInt 5]}) spec_count_5_files_out None
         = Raise e.
Proof.
  assert (Hb : @build_restart prev_engine restart_only (-1)
                 (fizzled_parent {["restart_count" := VInt 5]}) = Ok None)
    by (vm_compute; reflexivity).
  split; [exact Hb|].
  apply (@files_out_without_fragment_raises prev_engine restart_only (-1) _
           spec_count_5_files_out (VDict {["log" := VStr "log.*"]}) Hb);
    [reflexivity|by vm_compute].
Defined.

Lemma record_without_spec_counts_zero_witness :
  @restart_count_of prev_engine (VDict record_without_spec) "restart_count" = Ok 0.
Proof. apply (@record_without_spec_counts_zero prev_engine). reflexivity. Defined.

Lemma superposing_on_excluded_dict_raises_witness :
  parent_spec_with_env !! "_fw_env" = Some (VDict {["scratch" := VStr "/tmp"]})
  ∧ @appendable_wf_from_dict prev_engine (-1) (fw_dict "detour")
      (VDict parent_spec_with_env) (fw_spec_to_exclude_dict superposing)
    = Raise TypeError.
Proof.
  assert (Hb : parent_spec_with_env !! "_fw_env"
               = Some (VDict {["scratch" := VStr "/tmp"]})) by reflexivity.
  split; [exact Hb|].
  exact (@superposing_on_excluded_dict_raises prev_engine (-1)
           {["spec" := VDict {["_tasks" := VList []]}; "name" := VStr "detour"]}
           {["_tasks" := VList []]} parent_spec_with_env {["scratch" := VStr "/tmp"]}
           (list_to_map ((λ k, (k, EMark true)) <$> default_fw_spec_to_exclude))
           "_fw_env" true eq_refl Hb eq_refl (or_introl eq_refl)).
Defined.

Lemma recovery_node_inherits_whole_spec_witness :
  ∃ wf', @recover_stage prev_engine recovery (-2)
           (fizzled_parent {["restart_count" := VInt 2]}) spec_count_2
           (Some (single (node (-1)))) = Ok (Some wf', -4)
         ∧ spec <$> id_fw wf' !! (-3) = Some spec_count_2.
Proof.
  set (fw := mkFirework (-2) {["_tasks" := VList []; "restart_count" := VInt 3]}
               (VStr "restart") (VList [])).
  destruct (@recovery_node_inherits_whole_spec prev_engine recovery (-2)
              (fizzled_parent {["restart_count" := VInt 2]}) spec_count_2
              (Some (single (node (-1)))) (single fw)
              (mkWorkflow {[-2 := fw; -1 := node (-1)]} {[-2 := []; -1 := []]})
              (-3) default_fw_spec_to_exclude) as (wf' & Hrun & Hid & _).
  - vm_compute. reflexivity.
  - reflexivity.
  - vm_compute. reflexivity.
  - lia.
  - vm_compute. reflexivity.
  - reflexivity.
  - exists wf'. split; [exact Hrun|]. by rewrite Hid, lookup_insert_eq.
Defined.

Lemma restart_wf_is_mandatory_witness :
  @recover_stage prev_engine detour_only (-2)
    (fizzled_parent {["restart_count" := VInt 2]}) spec_count_2
    (Some (single (node (-1)))) = Raise ValueError.
Proof.
  apply (@restart_wf_is_mandatory prev_engine detour_only (-2)
           (fizzled_parent {["restart_count" := VInt 2]}) spec_count_2
           (Some (single (node (-1)))) 3).
  - vm_compute. reflexivity.
  - cbn. lia.
  - by vm_compute.
  - discriminate.
Defined.

Lemma nothing_inserted_without_record_witness :
  ∃ sd mods, @run_task prev_engine restart_only spec_no_parent
             = Ok (mkFWAction sd ∅ mods false [] []).
Proof.
  apply (@nothing_inserted_without_record prev_engine restart_only spec_no_parent);
    [reflexivity|reflexivity|discriminate|discriminate].
Defined.

End TaskMore.

(** ** The identifiers of a fragment *)

Module IdFacts.
Import Wf Task Scenario More MergeFacts GraphFacts.

(** Re-keying the entries of a list into a map: which keys the result has. *)
Lemma rekey_dom {V W} (f : Z → Z) (g : V → W) (l : list (Z * V)) (acc : gmap Z W) j :
  is_Some (foldl (λ m (p : Z * V), <[f p.1 := g p.2]> m) acc l !! j)
  ↔ (∃ k, k ∈ l.*1 ∧ f k = j) ∨ is_Some (acc !! j).
Proof.
  revert acc. induction l as [|[k v] l IH]; intros acc; cbn [foldl].
  - split; [by right|]. intros [(k & Hk & _)|?]; [|done]. by apply elem_of_nil in Hk.
  - rewrite IH, fmap_cons. cbn [fst snd]. split.
    + intros [(k' & Hk' & Hf)|Hacc].
      * left. exists k'. split; [by right|done].
      * destruct (decide (f k = j)) as [Hj|Hj].
        -- left. exists k. split; [by left|done].
        -- right. by rewrite lookup_insert_ne in Hacc.
    + intros [(k' & Hk' & Hf)|Hacc].
      * apply elem_of_cons in Hk' as [->|Hk'].
        -- right. rewrite Hf, lookup_insert_eq. by eexists.
        -- left. by exists k'.
      * right. destruct (decide (f k = j)) as [Hj|Hj].
        -- rewrite Hj, lookup_insert_eq. by eexists.
        -- by rewrite lookup_insert_ne.
Qed.

(** ... and where its values come from. *)
Lemma rekey_lookup {V W} (f : Z → Z) (g : V → W) (l : list (Z * V)) (acc : gmap Z W)
    j w :
  foldl (λ m (p : Z * V), <[f p.1 := g p.2]> m) acc l !! j = Some w →
  (∃ k v, (k, v) ∈ l ∧ f k = j ∧ w = g v) ∨ acc !! j = Some w.
Proof.
  revert acc. induction l as [|[k v] l IH]; intros acc; cbn [foldl]; [by right|].
  intros Hj. apply IH in Hj as [(k' & v' & Hin & Hf & ->)|Hacc].
  - left. exists k', v'. split; [by right|done].
  - cbn [fst snd] in Hacc. destruct (decide (f k = j)) as [Hk|Hk].
    + rewrite Hk, lookup_insert_eq in Hacc. injection Hacc as <-.
      left. exists k, v. split; [by left|done].
    + rewrite lookup_insert_ne in Hacc by done. by right.
Qed.

Lemma rekey_dom_id {V} (f : Z → Z) (l : list (Z * V)) (acc : gmap Z V) j :
  is_Some (foldl (λ m (p : Z * V), <[f p.1 := p.2]> m) acc l !! j)
  ↔ (∃ k, k ∈ l.*1 ∧ f k = j) ∨ is_Some (acc !! j).
Proof. exact (rekey_dom f (λ x, x) l acc j). Qed.

Lemma rekey_lookup_id {V} (f : Z → Z) (l : list (Z * V)) (acc : gmap Z V) j w :
  foldl (λ m (p : Z * V), <[f p.1 := p.2]> m) acc l !! j = Some w →
  (∃ k, (k, w) ∈ l ∧ f k = j) ∨ acc !! j = Some w.
Proof.
  intros Hj. apply (rekey_lookup f (λ x, x) l acc j w) in Hj
    as [(k & v & Hin & Hf & ->)|Hj]; [left; by exists k|by right].
Qed.

(** The loop of lines 466-469 over nodes stored under their identifiers:
    the [i]-th node met gets the identifier [n - i]. *)
Lemma renumber_fold (L : list (Z * Firework)) (rm : gmap Z Z)
    (nodes : gmap Z Firework) (n : Z) :
  NoDup L.*1 → (∀ k fw, (k, fw) ∈ L → fw_id fw = k) →
  ∃ rm' nodes',
    foldl (λ (acc : gmap Z Z * gmap Z Firework * Z) (kf : Z * Firework),
        let '(remapped, nodes, n) := acc in
        (<[fw_id kf.2 := n]> remapped, <[kf.1 := set_fw_id kf.2 n]> nodes, n - 1))
      (rm, nodes, n) L = (rm', nodes', n - Z.of_nat (length L))
    ∧ (∀ (i : nat) k fw, L !! i = Some (k, fw) →
         rm' !! k = Some (n - Z.of_nat i)
         ∧ nodes' !! k = Some (set_fw_id fw (n - Z.of_nat i)))
    ∧ (∀ k, k ∉ L.*1 → rm' !! k = rm !! k ∧ nodes' !! k = nodes !! k).
Proof.
  revert rm nodes n. induction L as [|[k0 fw0] L IH]; intros rm nodes n Hnd Hkey.
  - exists rm, nodes. cbn. rewrite Z.sub_0_r. split; [done|]. split; [|done].
    intros i k fw Hi. by rewrite lookup_nil in Hi.
  - rewrite fmap_cons in Hnd. apply NoDup_cons in Hnd as [Hk0 Hnd]. cbn [fst] in Hk0.
    assert (Hid : fw_id fw0 = k0) by (apply Hkey; by left).
    cbn [foldl fst snd]. rewrite Hid.
    destruct (IH (<[k0 := n]> rm) (<[k0 := set_fw_id fw0 n]> nodes) (n - 1) Hnd)
      as (rm' & nodes' & Hrun & Hin & Hout).
    { intros k fw Hin. apply Hkey. by right. }
    exists rm', nodes'. split; [|split].
    + rewrite Hrun. f_equal. cbn [length]. lia.
    + intros [|i] k fw Hi.
      * injection Hi as <- <-. destruct (Hout k0 Hk0) as [-> ->].
        rewrite !lookup_insert_eq, Z.sub_0_r. done.
      * cbn in Hi. destruct (Hin i k fw Hi) as [H1 H2].
        replace (n - Z.of_nat (S i)) with (n - 1 - Z.of_nat i) by lia. done.
    + intros k Hk. rewrite fmap_cons in Hk. apply not_elem_of_cons in Hk as [Hne Hk].
      cbn [fst] in Hne. destruct (Hout k Hk) as [-> ->].
      by rewrite !lookup_insert_ne.
Qed.

(** Renumbering a well-formed workflow of [size] nodes from [next] downwards
    leaves a well-formed workflow whose identifiers are exactly the
    integers of [(next - size, next]]. *)
Lemma renumber_range (next : Z) (wf : Workflow) :
  well_formed wf →
  well_formed (renumber next wf).1
  ∧ (renumber next wf).2 = next - Z.of_nat (size (id_fw wf))
  ∧ ids_fill (renumber next wf).1 (next - Z.of_nat (size (id_fw wf))) next.
Proof.
  intros [Hkey Hdom]. unfold renumber.
  destruct (renumber_fold (map_to_list (id_fw wf)) ∅ (id_fw wf) next)
    as (rm' & nodes' & Hrun & Hin & Hout).
  { apply NoDup_fst_map_to_list. }
  { intros k fw Hk. apply Hkey. by apply elem_of_map_to_list. }
  rewrite Hrun. rewrite length_map_to_list in *. cbn [fst snd].
  set (rn := λ i : Z, default i (rm' !! i)).
  (* every node of the renumbered map, with the position it was met at *)
  assert (Hnodes : ∀ k fw', nodes' !! k = Some fw' →
            ∃ i : nat, (i < size (id_fw wf))%nat ∧ rn k = next - Z.of_nat i
                       ∧ fw_id fw' = next - Z.of_nat i).
  { intros k fw' Hk. destruct (id_fw wf !! k) as [fw|] eqn:Hfw.
    - apply elem_of_map_to_list in Hfw. apply list_elem_of_lookup in Hfw as [i Hi].
      destruct (Hin i k fw Hi) as [H1 H2]. exists i. split.
      + apply lookup_lt_Some in Hi. by rewrite length_map_to_list in Hi.
      + unfold rn. rewrite H1. rewrite H2 in Hk. injection Hk as <-. done.
    - destruct (Hout k) as [_ H2].
      + intros Hel. apply list_elem_of_fmap in Hel as ([k' v] & -> & Hel).
        apply elem_of_map_to_list in Hel. cbn in Hfw. congruence.
      + rewrite H2, Hfw in Hk. done. }
  assert (Hpos : ∀ i : nat, (i < size (id_fw wf))%nat →
            ∃ k, is_Some (nodes' !! k) ∧ is_Some (id_fw wf !! k)
                 ∧ rn k = next - Z.of_nat i).
  { intros i Hi. rewrite <-length_map_to_list in Hi.
    apply lookup_lt_is_Some in Hi as [[k fw] Hi].
    destruct (Hin i k fw Hi) as [H1 H2]. exists k. split; [by eexists|].
    split; [|by unfold rn; rewrite H1].
    exists fw. apply elem_of_map_to_list. apply list_elem_of_lookup. by eexists. }
  assert (Hsame : ∀ k, is_Some (nodes' !! k) ↔ is_Some (id_fw wf !! k)).
  { intros k. split.
    - intros [fw' Hk]. destruct (id_fw wf !! k) as [fw|] eqn:Hfw; [by eexists|].
      destruct (Hout k) as [_ H2].
      + intros Hel. apply list_elem_of_fmap in Hel as ([k' v] & -> & Hel).
        apply elem_of_map_to_list in Hel. cbn in Hfw. congruence.
      + rewrite H2, Hfw in Hk. done.
    - intros [fw Hfw]. apply elem_of_map_to_list in Hfw.
      apply list_elem_of_lookup in Hfw as [i Hi].
      destruct (Hin i k fw Hi) as [_ H2]. by eexists. }
  assert (Hfst : ∀ {V} (m : gmap Z V) k, k ∈ (map_to_list m).*1 ↔ is_Some (m !! k)).
  { intros V m k. rewrite list_elem_of_fmap. split.
    - intros ([k' v] & -> & Hel). apply elem_of_map_to_list in Hel. by eexists.
    - intros [v Hv]. exists (k, v). split; [done|]. by apply elem_of_map_to_list. }
  assert (Hn : id_fw (reassign_ids rm' (mkWorkflow nodes' (links wf)))
               = foldl (λ m (p : Z * Firework), <[rn p.1 := p.2]> m) ∅
                   (map_to_list nodes')) by reflexivity.
  assert (Hl : links (reassign_ids rm' (mkWorkflow nodes' (links wf)))
               = foldl (λ m (p : Z * list Z), <[rn p.1 := rn <$> p.2]> m) ∅
                   (map_to_list (links wf))) by reflexivity.
  assert (Hids : ∀ j, is_Some (id_fw (reassign_ids rm' (mkWorkflow nodes' (links wf))) !! j)
                      ↔ ∃ k, is_Some (id_fw wf !! k) ∧ rn k = j).
  { intros j. rewrite Hn, (rekey_dom_id rn), lookup_empty. split.
    - intros [(k & Hk & Hj)|[? ?]]; [|done]. exists k. split; [|done].
      apply Hsame. by apply Hfst.
    - intros (k & Hk & Hj). left. exists k. split; [|done]. apply Hfst. by apply Hsame. }
  split; [split|split].
  - intros j fw' Hj. rewrite Hn in Hj.
    apply (rekey_lookup_id rn) in Hj as [(k & Hel & Hf)|Hj];
      [|by rewrite lookup_empty in Hj].
    apply elem_of_map_to_list in Hel.
    destruct (Hnodes k fw' Hel) as (i & _ & Hr & Hi). congruence.
  - apply set_eq. intros j. rewrite !elem_of_dom, Hids.
    rewrite Hl, (rekey_dom rn (fmap rn)), lookup_empty. split.
    + intros [(k & Hk & Hj)|[? ?]]; [|done]. exists k. split; [|done].
      apply elem_of_dom. rewrite <-Hdom. apply elem_of_dom. by apply Hfst.
    + intros (k & Hk & Hj). left. exists k. split; [|done]. apply Hfst.
      apply elem_of_dom. rewrite Hdom. by apply elem_of_dom.
  - done.
  - intros j. rewrite Hids. split.
    + intros (k & Hk & Hj). apply Hsame in Hk as [fw' Hk].
      destruct (Hnodes k fw' Hk) as (i & Hi & Hr & _). lia.
    + intros Hj. destruct (Hpos (Z.to_nat (next - j))) as (k & _ & Hk & Hr); [lia|].
      exists k. split; [done|]. lia.
Qed.

(** The single node of a fragment. *)
Lemma single_range (fw : Firework) (next : Z) :
  well_formed (single (set_fw_id fw next))
  ∧ ids_fill (single (set_fw_id fw next)) (next - 1) next.
Proof.
  split; [split|]; simpl.
  - intros k fw' Hk. apply lookup_singleton_Some in Hk as [<- <-]. done.
  - by rewrite !dom_singleton_L.
  - intros j. simpl. split.
    + intros [fw' Hk]. apply lookup_singleton_Some in Hk as [<- _]. lia.
    + intros Hj. assert (j = next) as -> by lia. rewrite lookup_singleton_eq. by eexists.
Qed.

Section with_engine.
Context `{Engine}.

(** X27: when the engine's deserializer yields well-formed workflows, a
    fragment built with the counter at [next] is well formed, its
    identifiers are exactly the integers of [(n, next]] for the counter [n]
    handed back, and, the counter being negative, all of them are negative:
    fragments built one after the other never share an identifier. *)
Theorem fragment_ids_are_consecutive (next : Z) (obj_dict base_spec : value)
    (exclusions : excl) (wf : Workflow) (n : Z) :
  (∀ m w, Workflow_from_dict m = Ok w → well_formed w) →
  appendable_wf_from_dict next obj_dict base_spec exclusions = Ok (wf, n) →
  well_formed wf ∧ n ≤ next ∧ ids_fill wf n next ∧ (next < 0 → fresh wf).
Proof.
  intros Hwf Hbuild.
  assert (Hcore : well_formed wf ∧ n ≤ next ∧ ids_fill wf n next).
  { unfold appendable_wf_from_dict in Hbuild.
    destruct obj_dict as [| | | | |obj]; try done.
    case_bool_decide as Hspec.
    - apply bind_Ok in Hbuild as (obj' & _ & Hbuild).
      apply bind_Ok in Hbuild as (fw & _ & [= <- <-]).
      destruct (single_range fw next) as [H1 H2]. split; [done|]. split; [lia|done].
    - apply bind_Ok in Hbuild as (obj' & _ & Hbuild).
      apply bind_Ok in Hbuild as (w & Hw & Hbuild). apply Hwf in Hw.
      destruct (renumber_range next w Hw) as (H1 & H2 & H3).
      injection Hbuild as Hb. rewrite Hb in *. cbn [fst snd] in *.
      split; [done|]. split; [lia|]. by rewrite H2. }
  destruct Hcore as (H1 & H2 & H3). split; [done|]. split; [done|]. split; [done|].
  intros Hneg k Hk. apply H3 in Hk. lia.
Qed.

End with_engine.

(** X28: the repeated recovery node is one new node, stored under the next
    free identifier with the configured name, the task itself as its only
    task and the given spec; it becomes the only child of every leaf, the
    other nodes and the other adjacency lists are kept. *)
Theorem recovery_node_is_child_of_every_leaf (p : params) (next : Z)
    (sp : gmap string value) (wf : Workflow) :
  next < 0 → links wf !! next = None →
  ∃ wf', append_recover_fw p next sp wf = Ok (wf', next - 1)
    ∧ id_fw wf' = <[next := mkFirework next sp (repeated_recover_fw_name p)
                              (VList [recover_ft p])]> (id_fw wf)
    ∧ links wf' !! next = Some []
    ∧ (∀ l, l ∈ leaf_fw_ids wf → links wf' !! l = Some [next])
    ∧ (∀ k, k ≠ next → k ∉ leaf_fw_ids wf → links wf' !! k = links wf !! k).
Proof.
  intros Hneg Hfresh. unfold append_recover_fw.
  destruct (append_wf_below_leaves wf (recover_fw p next sp))
    as (wf' & Hrun & Hn & Hr & Hl); [done|done|].
  exists wf'. rewrite Hrun. split; [done|]. split; [done|]. split; [done|].
  cbn in Hl. split.
  - intros l Hin. rewrite Hl.
    + by rewrite bool_decide_true.
    + intros ->. apply elem_of_leaf_fw_ids in Hin. congruence.
  - intros k Hk Hleaf. rewrite Hl by done. by rewrite bool_decide_false.
Qed.

(** The checked deserializer yields well-formed workflows. *)
Lemma checked_wf_well_formed (m : gmap string value) (w : Workflow) :
  checked_wf_of_dict m = Ok w → well_formed w.
Proof.
  unfold checked_wf_of_dict. intros Hw. apply bind_Ok in Hw as (w0 & Hw0 & Hw).
  case_bool_decide as Hdom; [|done]. injection Hw as <-. split; [|done].
  unfold Reference.wf_of_dict in Hw0.
  destruct (m !! "fws") as [[| | | |l|]|]; try done.
  destruct (m !! "links") as [[| | | | |lk]|]; try done.
  apply bind_Ok in Hw0 as (nodes & _ & Hw0). apply bind_Ok in Hw0 as (lnk & _ & Hw0).
  injection Hw0 as <-. cbn [id_fw]. intros k fw Hk.
  apply elem_of_list_to_map_2 in Hk. apply list_elem_of_fmap in Hk as (fw' & Heq & _).
  by injection Heq as -> ->.
Qed.

(** *** Witnesses *)

Lemma fragment_ids_are_consecutive_witness :
  ∃ wf, @appendable_wf_from_dict checked_engine (-1) chain_dict VNone no_excl
          = Ok (wf, -3)
        ∧ ids_fill wf (-3) (-1) ∧ fresh wf.
Proof.
  assert (Hb : ∃ wf, @appendable_wf_from_dict checked_engine (-1) chain_dict VNone no_excl
                     = Ok (wf, -3)) by (eexists; vm_compute; reflexivity).
  destruct Hb as [wf Hb]. exists wf. split; [exact Hb|].
  destruct (@fragment_ids_are_consecutive checked_engine _ _ _ _ _ _
              checked_wf_well_formed Hb) as (_ & _ & H3 & H4).
  split; [exact H3|]. apply H4. lia.
Defined.

Lemma recovery_node_is_child_of_every_leaf_witness :
  ∃ wf', append_recover_fw recovery (-5) ∅ diamond = Ok (wf', -6)
         ∧ links wf' !! (-4) = Some [-5].
Proof.
  destruct (recovery_node_is_child_of_every_leaf recovery (-5) ∅ diamond)
    as (wf' & Hrun & _ & _ & Hl & _); [lia|reflexivity|].
  exists wf'. split; [exact Hrun|]. apply Hl. apply elem_of_leaf_fw_ids. reflexivity.
Defined.

End IdFacts.
